(** * musicbrainz-poc: the search page's ranking core and the recording page

    A shallow embedding of [src/app/search/page.tsx] and of the recording
    detail page, with the properties of the canonicalisation core.

    Conventions of the embedding.
    - A JavaScript string is a sequence of UTF-16 code units.  The development
      covers the strings whose code units are below 256 (Latin-1): one [ascii]
      per code unit.  [length], concatenation, [===] and [<] on such strings
      are [String.length], [append], equality and the lexicographic order of
      the code units.
    - A JavaScript number that only ever holds an integer is a [Z].
    - An optional field ([f?: T]) is an [option T]; absent is [None].
    - [throw new Error(m)] is the completion [Throw m]. *)

From Stdlib Require Import ZArith NArith List String Ascii Bool Lia.
From Stdlib Require Import Permutation DecimalString.
Import ListNotations.

Local Open Scope string_scope.
Local Open Scope Z_scope.

(* ------------------------------------------------------------------ *)
(** ** The JavaScript built-ins the two pages use *)

Module JS.

(** The double-quote character, code unit 34. *)
Definition dquote : ascii := "034"%char.

(** The backslash character, code unit 92. *)
Definition backslash : ascii := "092"%char.

(** WhiteSpace and LineTerminator code units below 256: TAB, LF, VT, FF,
    CR, SP and NBSP. *)
Definition isWhiteSpace (c : ascii) : bool :=
  let n := N_of_ascii c in
  ((9 <=? n) && (n <=? 13) || (n =? 32) || (n =? 160))%N.

Fixpoint trimStart (s : string) : string :=
  match s with
  | EmptyString => EmptyString
  | String c s' => if isWhiteSpace c then trimStart s' else s
  end.

Fixpoint trimEnd (s : string) : string :=
  match s with
  | EmptyString => EmptyString
  | String c s' =>
      match trimEnd s' with
      | EmptyString => if isWhiteSpace c then EmptyString else String c EmptyString
      | t => String c t
      end
  end.

(** [String.prototype.trim] *)
Definition trim (s : string) : string := trimEnd (trimStart s).

(** Lower-casing of one Latin-1 code unit: A-Z and the accented capitals
    192-222 (the multiplication sign 215 excepted) move up by 32. *)
Definition lowerChar (c : ascii) : ascii :=
  let n := N_of_ascii c in
  if ((65 <=? n) && (n <=? 90) || (192 <=? n) && (n <=? 222) && negb (n =? 215))%N
  then ascii_of_N (n + 32)
  else c.

(** [String.prototype.toLowerCase] *)
Fixpoint toLowerCase (s : string) : string :=
  match s with
  | EmptyString => EmptyString
  | String c s' => String (lowerChar c) (toLowerCase s')
  end.

(** [a < b] on strings *)
Definition lt (a b : string) : bool := String.ltb a b.

(** [String.prototype.includes] *)
Fixpoint includes (h n : string) : bool :=
  String.prefix n h ||
  match h with
  | EmptyString => false
  | String _ h' => includes h' n
  end.

(** [Array.prototype.join] *)
Definition join (sep : string) (xs : list string) : string := String.concat sep xs.

(** [Array.prototype.includes] on an array of strings *)
Definition arrayIncludes (xs : list string) (x : string) : bool :=
  existsb (String.eqb x) xs.

(** [String.prototype.replaceAll] with a string pattern and a replacement
    free of [$]: the non-overlapping occurrences of [pat], found from the
    left, are each replaced by [rep].  [skip] counts the code units still
    covered by the occurrence just replaced.  The empty pattern matches
    before every code unit and at the end. *)
Fixpoint replaceAllFrom (skip : nat) (pat rep s : string) : string :=
  match s with
  | EmptyString => EmptyString
  | String c s' =>
      match skip with
      | S k => replaceAllFrom k pat rep s'
      | O =>
          if String.prefix pat s
          then rep ++ replaceAllFrom (Nat.pred (String.length pat)) pat rep s'
          else String c (replaceAllFrom O pat rep s')
      end
  end.

Fixpoint replaceAllEmpty (rep s : string) : string :=
  match s with
  | EmptyString => rep
  | String c s' => rep ++ String c (replaceAllEmpty rep s')
  end.

Definition replaceAll (pat rep s : string) : string :=
  match pat with
  | EmptyString => replaceAllEmpty rep s
  | _ => replaceAllFrom O pat rep s
  end.

(** Template-literal rendering of a non-negative integer. *)
Definition numberToString (n : N) : string :=
  NilEmpty.string_of_uint (N.to_uint n).



(** [Array.prototype.sort] with a comparator.  The sort is stable, and for
    a consistent comparator its result is the one stable sorted
    arrangement; insertion from the right computes it. *)
Section Sort.
Context {A : Type} (cmp : A -> A -> Z).

Fixpoint insert (x : A) (l : list A) : list A :=
  match l with
  | [] => [x]
  | y :: l' => if cmp x y <=? 0 then x :: l else y :: insert x l'
  end.

Fixpoint sort (l : list A) : list A :=
  match l with
  | [] => []
  | x :: l' => insert x (sort l')
  end.
End Sort.

End JS.

(* ------------------------------------------------------------------ *)
(** ** Completions of a function that may throw *)

Inductive Completion (A : Type) : Type :=
| Normal (a : A)
| Throw (message : string).
Arguments Normal {A} a.
Arguments Throw {A} message.

(** What a [catch] receives: an [Error] with its message, or another
    value. *)
Inductive Thrown : Type :=
| ErrorObject (message : string)
| OtherValue.

(** [e instanceof Error ? e.message : "Unknown error"] *)
Definition errorMessage (e : Thrown) : string :=
  match e with
  | ErrorObject m => m
  | OtherValue => "Unknown error"
  end.

(** The part of a [fetch] response the pages read. *)
Record Response (B : Type) : Type := mkResponse {
  ok : bool;
  status : N;
  json : B
}.
Arguments mkResponse {B} ok status json.
Arguments ok {B} r.
Arguments status {B} r.
Arguments json {B} r.

(* ------------------------------------------------------------------ *)
(** ** The data of the search page *)

Record MusicBrainzArtist : Type := mkArtist {
  artist_id : option string;
  artist_name : option string
}.

Record MusicBrainzArtistCredit : Type := mkCredit {
  credit_name : option string;
  credit_artist : option MusicBrainzArtist
}.

Module SearchPage.

Record ReleaseGroup : Type := mkGroup {
  group_id : option string;
  group_title : option string;
  primary_type : option string;
  secondary_types : option (list string);
  group_disambiguation : option string
}.

Record MusicBrainzRelease : Type := mkRelease {
  release_id : option string;
  release_title : option string;
  date : option string;
  release_status : option string;
  release_group : option ReleaseGroup;
  disambiguation : option string
}.

Record MusicBrainzRecording : Type := mkRecording {
  id : string;
  title : string;
  artist_credit : option (list MusicBrainzArtistCredit);
  length : option Z;
  releases : option (list MusicBrainzRelease)
}.

(** [CanonicalReleaseGroup] and [CanonicalMatch] *)
Record CanonicalReleaseGroup : Type := mkCanonicalGroup {
  cg_id : option string;
  cg_title : option string;
  cg_primaryType : option string;
  cg_secondaryTypes : option (list string)
}.

Record CanonicalMatch : Type := mkCanonicalMatch {
  recordingMbid : string;
  cm_title : string;
  cm_artist : string;
  releaseGroup : option CanonicalReleaseGroup
}.

Definition normalizePartialDate (date : string) : string :=
  if (String.length date =? 4)%nat then date ++ "-00-00"
  else if (String.length date =? 7)%nat then date ++ "-00"
  else date.

Definition escapeQueryValue (value : string) : string :=
  JS.replaceAll (String JS.dquote "") (String "\" (String JS.dquote "")) value.

Definition normalizeForCompare (value : string) : string :=
  JS.toLowerCase (JS.trim value).

(** [c?.name ?? c?.artist?.name] *)
Definition creditDisplayName (c : MusicBrainzArtistCredit) : option string :=
  match credit_name c with
  | Some n => Some n
  | None =>
      match credit_artist c with
      | Some a => artist_name a
      | None => None
      end
  end.

Definition isExactArtistMatch (recording : MusicBrainzRecording) (artist : string) : bool :=
  let target := normalizeForCompare artist in
  if (String.length target =? 0)%nat then false
  else
    match artist_credit recording with
    | None => false
    | Some credits =>
        existsb (fun c =>
                   match creditDisplayName c with
                   | None => false
                   | Some name =>
                       if (name =? "")%string then false
                       else (normalizeForCompare name =? target)%string
                   end) credits
    end.

(** [typeof r.date === "string" ? r.date.trim() : ""] *)
Definition rawDate (r : MusicBrainzRelease) : string :=
  match date r with
  | Some d => JS.trim d
  | None => ""
  end.

Definition getEarliestReleaseDate (releases : option (list MusicBrainzRelease)) : string :=
  match releases with
  | None => "9999-99-99"
  | Some rs =>
      fold_left
        (fun best r =>
           let raw := rawDate r in
           if (String.length raw =? 0)%nat then best
           else
             let norm := normalizePartialDate raw in
             if JS.lt norm best then norm else best)
        rs "9999-99-99"
  end.

Definition includesAny (haystack : string) (needles : list string) : bool :=
  let h := normalizeForCompare haystack in
  existsb (fun n => JS.includes h n) needles.

(** [.filter((v) => typeof v === "string" && v.trim().length > 0)] *)
Definition nonBlankStrings (vs : list (option string)) : list string :=
  flat_map (fun v =>
              match v with
              | Some s => if (0 <? String.length (JS.trim s))%nat then [s] else []
              | None => []
              end) vs.

(** [group?.f] *)
Definition groupField {T : Type} (group : option ReleaseGroup)
  (f : ReleaseGroup -> option T) : option T :=
  match group with
  | Some g => f g
  | None => None
  end.

(** The [combinedText] of [getReleaseQualityPenalty]. *)
Definition qualityText (r : MusicBrainzRelease) : string :=
  let group := release_group r in
  JS.join " "
    (nonBlankStrings
       [release_title r; disambiguation r;
        groupField group group_title; groupField group group_disambiguation]).

(** The [combinedText] of [getPrimaryReleaseGroupPenalty]. *)
Definition primacyText (r : MusicBrainzRelease) : string :=
  let group := release_group r in
  JS.join " "
    (nonBlankStrings
       [release_title r; disambiguation r; groupField group group_disambiguation]).

Definition reissueTerms : list string :=
  ["remaster"; "remastered"; "deluxe"; "expanded"; "anniversary"; "edition";
   "reissue"; "bonus"].

Definition getReleaseQualityPenalty (r : MusicBrainzRelease) : Z :=
  let status :=
    match release_status r with
    | Some s => normalizeForCompare s
    | None => ""
    end in
  let group := release_group r in
  let primaryType :=
    match groupField group primary_type with
    | Some t => normalizeForCompare t
    | None => ""
    end in
  let secondaryTypes :=
    match groupField group secondary_types with
    | Some ts => map normalizeForCompare ts
    | None => []
    end in
  let combinedText := qualityText r in
  let penalty := 0 in
  let penalty :=
    if (status =? "bootleg")%string then penalty + 100
    else if (0 <? String.length status)%nat && negb (status =? "official")%string
         then penalty + 15
         else penalty in
  let penalty :=
    if JS.arrayIncludes secondaryTypes "compilation" then penalty + 25 else penalty in
  let penalty :=
    if JS.arrayIncludes secondaryTypes "live" then penalty + 25 else penalty in
  let penalty :=
    if JS.arrayIncludes secondaryTypes "remix" then penalty + 20 else penalty in
  let penalty :=
    if JS.arrayIncludes secondaryTypes "soundtrack" then penalty + 20 else penalty in
  let penalty :=
    if includesAny combinedText reissueTerms then penalty + 10 else penalty in
  let penalty :=
    if (0 <? String.length primaryType)%nat
       && negb (JS.arrayIncludes ["album"; "single"; "ep"] primaryType)
    then penalty + 8
    else penalty in
  penalty.

Definition secondaryTerms : list string :=
  ["remaster"; "remastered"; "deluxe"; "expanded"; "anniversary"; "edition";
   "reissue"].

(** [!group?.id]: the group is absent, or its id is absent or empty. *)
Definition lacksId (group : option ReleaseGroup) : bool :=
  match groupField group group_id with
  | Some i => (i =? "")%string
  | None => true
  end.

Definition getPrimaryReleaseGroupPenalty (r : MusicBrainzRelease) : Z :=
  let group := release_group r in
  let secondaryTypes :=
    match groupField group secondary_types with
    | Some ts => ts
    | None => []
    end in
  let penalty := 0 in
  let penalty := if lacksId group then penalty + 5 else penalty in
  let penalty := if (0 <? List.length secondaryTypes)%nat then penalty + 5 else penalty in
  let combinedText := primacyText r in
  let penalty := if includesAny combinedText secondaryTerms then penalty + 5 else penalty in
  penalty.

(** The four variables of the scan in [pickCanonicalRelease]. *)
Record PickState : Type := mkPick {
  best : option MusicBrainzRelease;
  bestDate : string;
  bestQuality : Z;
  bestPrimary : Z
}.

(** [rawDate.length > 0 ? normalizePartialDate(rawDate) : "9999-99-99"] *)
Definition dateKey (r : MusicBrainzRelease) : string :=
  let raw := rawDate r in
  if (0 <? String.length raw)%nat then normalizePartialDate raw else "9999-99-99".

(** One turn of the [for] loop of [pickCanonicalRelease]. *)
Definition pickStep (st : PickState) (r : MusicBrainzRelease) : PickState :=
  let dk := dateKey r in
  let quality := getReleaseQualityPenalty r in
  let primary := getPrimaryReleaseGroupPenalty r in
  match best st with
  | None => mkPick (Some r) dk quality primary
  | Some _ =>
      if negb (dk =? bestDate st)%string then
        if JS.lt dk (bestDate st) then mkPick (Some r) dk quality primary else st
      else if negb (quality =? bestQuality st) then
        if quality <? bestQuality st
        then mkPick (Some r) (bestDate st) quality primary
        else st
      else if negb (primary =? bestPrimary st) then
        if primary <? bestPrimary st
        then mkPick (Some r) (bestDate st) (bestQuality st) primary
        else st
      else st
  end.

Definition pickCanonicalRelease (releases : option (list MusicBrainzRelease))
  : option MusicBrainzRelease :=
  match releases with
  | None => None
  | Some [] => None
  | Some rs => best (fold_left pickStep rs (mkPick None "9999-99-99" 9999 9999))
  end.

Definition getArtistName (r : MusicBrainzRecording) : string :=
  match artist_credit r with
  | None => "Unknown artist"
  | Some [] => "Unknown artist"
  | Some credits =>
      let names := nonBlankStrings (map creditDisplayName credits) in
      match names with
      | [] => "Unknown artist"
      | _ => JS.join ", " names
      end
  end.

Definition toCanonicalMatch (recording : MusicBrainzRecording) : CanonicalMatch :=
  let canonicalRelease := pickCanonicalRelease (releases recording) in
  let releaseGroup :=
    match canonicalRelease with
    | Some r =>
        match release_group r with
        | Some g =>
            Some (mkCanonicalGroup (group_id g) (group_title g)
                    (primary_type g) (secondary_types g))
        | None => None
        end
    | None => None
    end in
  mkCanonicalMatch (id recording) (title recording) (getArtistName recording)
    releaseGroup.

(** The entries of [scored] in [rankRecordings]. *)
Record Scored : Type := mkScored {
  rec : MusicBrainzRecording;
  artistMatch : bool;
  earliestDate : string;
  s_bestQuality : Z;
  bestPrimaryPenalty : Z
}.

(** The callback of [args.recordings.map] in [rankRecordings], for the
    already trimmed artist query. *)
Definition score (artist : string) (r : MusicBrainzRecording) : Scored :=
  let artistMatch := isExactArtistMatch r artist in
  let earliestDate := getEarliestReleaseDate (releases r) in
  let rels := match releases r with Some rs => rs | None => [] end in
  let '(bestQuality, bestPrimaryPenalty) :=
    fold_left
      (fun '(bq, bp) x =>
         let q := getReleaseQualityPenalty x in
         let bq := if q <? bq then q else bq in
         let p := getPrimaryReleaseGroupPenalty x in
         let bp := if p <? bp then p else bp in
         (bq, bp))
      rels (9999, 9999) in
  let bestQuality := if bestQuality =? 9999 then 999 else bestQuality in
  let bestPrimaryPenalty := if bestPrimaryPenalty =? 9999 then 99 else bestPrimaryPenalty in
  mkScored r artistMatch earliestDate bestQuality bestPrimaryPenalty.

Section Ranking.

(** [String.prototype.localeCompare]: the host's collation, kept abstract. *)
Variable localeCompare : string -> string -> Z.

(** The comparator handed to [scored.sort]. *)
Definition compareScored (a b : Scored) : Z :=
  if negb (Bool.eqb (artistMatch a) (artistMatch b)) then
    if artistMatch a then -1 else 1
  else if negb (earliestDate a =? earliestDate b)%string then
    if JS.lt (earliestDate a) (earliestDate b) then -1 else 1
  else if negb (s_bestQuality a =? s_bestQuality b) then
    s_bestQuality a - s_bestQuality b
  else if negb (bestPrimaryPenalty a =? bestPrimaryPenalty b) then
    bestPrimaryPenalty a - bestPrimaryPenalty b
  else localeCompare (id (rec a)) (id (rec b)).

Definition rankRecordings (recordings : list MusicBrainzRecording) (artistQuery : string)
  : list MusicBrainzRecording :=
  let artist := JS.trim artistQuery in
  let scored := map (score artist) recordings in
  let scored := JS.sort compareScored scored in
  map rec scored.

End Ranking.

Definition buildRecordingSearchQuery (title artist : string) : string :=
  let parts : list string := [] in
  let title := JS.trim title in
  let artist := JS.trim artist in
  let parts :=
    if (0 <? String.length title)%nat
    then List.app parts ["recording:" ++ String JS.dquote (escapeQueryValue title ++ String JS.dquote "")]
    else parts in
  let parts :=
    if (0 <? String.length artist)%nat
    then List.app parts ["artist:" ++ String JS.dquote (escapeQueryValue artist ++ String JS.dquote "")]
    else parts in
  JS.join " AND " parts.

(** [MusicBrainzRecordingResponse] *)
Record MusicBrainzRecordingResponse : Type := mkSearchResponse {
  recordings : option (list MusicBrainzRecording);
  count : option Z;
  offset : option Z
}.

(** The statements of [runSearch] between the [fetch] and the end of the
    [try] block, for a request that was sent: the result is the canonical
    match handed to [setCanonical], or the error thrown to the [catch]. *)
Definition runSearchTry (localeCompare : string -> string -> Z)
  (artist : string) (res : Response MusicBrainzRecordingResponse)
  : Completion CanonicalMatch :=
  if negb (ok res) then
    Throw ("Request failed (" ++ JS.numberToString (status res) ++ ")")
  else
    let data := json res in
    let recordings := match recordings data with Some rs => rs | None => [] end in
    let ranked := rankRecordings localeCompare recordings artist in
    match ranked with
    | [] => Throw "No canonical match found."
    | best :: _ => Normal (toCanonicalMatch best)
    end.

(** What the awaited [fetch] and, on a successful response, the awaited
    [res.json()] come to: one of the two promises rejects, or the response
    is there with its body. *)
Inductive FetchOutcome : Type :=
| Rejected (e : Thrown)
| Resolved (res : Response MusicBrainzRecordingResponse).

(** The state [runSearch] writes: three of the component's state variables
    and the session-storage item ["musicbrainz_canonical_match"], which holds
    the serialized match.  ([submittedQuery], which only feeds the heading,
    is not part of this record.) *)
Record PageState : Type := mkPage {
  isLoading : bool;
  error : option string;
  canonical : option CanonicalMatch;
  storedMatch : option CanonicalMatch
}.

(** [runSearch], as the state after the call settles. *)
Definition runSearch (localeCompare : string -> string -> Z) (st : PageState)
  (title artist : string) (outcome : FetchOutcome) : PageState :=
  let queryString := buildRecordingSearchQuery title artist in
  let trimmed := JS.trim queryString in
  if (String.length trimmed =? 0)%nat then
    mkPage (isLoading st) None None None
  else
    let attempt :=
      match outcome with
      | Rejected e => Throw (errorMessage e)
      | Resolved res => runSearchTry localeCompare artist res
      end in
    match attempt with
    | Normal nextCanonical => mkPage false None (Some nextCanonical) (Some nextCanonical)
    | Throw message => mkPage false (Some message) None None
    end.

End SearchPage.

(* ------------------------------------------------------------------ *)
(** ** The recording page *)

Module RecordingPage.

Record MusicBrainzRelease : Type := mkRelease {
  release_id : option string;
  release_title : option string;
  date : option string
}.

Record MusicBrainzRecordingDetails : Type := mkDetails {
  id : string;
  title : string;
  length : option Z;
  artist_credit : option (list MusicBrainzArtistCredit);
  releases : option (list MusicBrainzRelease)
}.

Definition normalizePartialDate (date : string) : string :=
  if (String.length date =? 4)%nat then date ++ "-00-00"
  else if (String.length date =? 7)%nat then date ++ "-00"
  else date.

(** [typeof r.date === "string" && r.date.trim().length > 0] *)
Definition hasDate (r : MusicBrainzRelease) : bool :=
  match date r with
  | Some d => (0 <? String.length (JS.trim d))%nat
  | None => false
  end.

(** [typeof x.date === "string" ? normalizePartialDate(x.date) : "9999-99-99"] *)
Definition sortKey (x : MusicBrainzRelease) : string :=
  match date x with
  | Some d => normalizePartialDate d
  | None => "9999-99-99"
  end.

(** One turn of the [for] loop of [getFirstRelease]. *)
Definition firstStep (best : option MusicBrainzRelease) (r : MusicBrainzRelease)
  : option MusicBrainzRelease :=
  match best with
  | None => Some r
  | Some b => if JS.lt (sortKey r) (sortKey b) then Some r else best
  end.

Definition getFirstRelease (releases : option (list MusicBrainzRelease))
  : option MusicBrainzRelease :=
  match releases with
  | None => None
  | Some [] => None
  | Some rs =>
      let withDates := filter hasDate rs in
      let list := if (0 <? List.length withDates)%nat then withDates else rs in
      let best := hd_error list in
      fold_left firstStep list best
  end.

(** The statements of [fetchRecording] after the [fetch]. *)
Definition fetchRecording (res : Response MusicBrainzRecordingDetails)
  : Completion MusicBrainzRecordingDetails :=
  if negb (ok res) then
    if (status res =? 403)%N then
      Throw "Request failed (403). MusicBrainz requires a valid User-Agent. Set MUSICBRAINZ_USER_AGENT to something like: MyApp/1.0.0 (you@example.com)"
    else Throw ("Request failed (" ++ JS.numberToString (status res) ++ ")")
  else Normal (json res).

Definition getArtistNames (credits : option (list MusicBrainzArtistCredit)) : string :=
  match credits with
  | None => "Unknown artist"
  | Some [] => "Unknown artist"
  | Some cs =>
      let names := SearchPage.nonBlankStrings (map SearchPage.creditDisplayName cs) in
      if (0 <? List.length names)%nat then JS.join ", " names else "Unknown artist"
  end.


End RecordingPage.

(* ------------------------------------------------------------------ *)
(** ** Vocabulary of the properties *)

(** Every code unit of [s] is white space. *)
Fixpoint allWhiteSpace (s : string) : bool :=
  match s with
  | EmptyString => true
  | String c s' => JS.isWhiteSpace c && allWhiteSpace s'
  end.

(** A string that is empty or starts with a code unit that is not white
    space. *)
Definition noLeadingSpace (s : string) : Prop :=
  match s with
  | EmptyString => True
  | String c _ => JS.isWhiteSpace c = false
  end.

(** The same release with another status. *)
Definition withStatus (st : option string) (r : SearchPage.MusicBrainzRelease)
  : SearchPage.MusicBrainzRelease :=
  SearchPage.mkRelease (SearchPage.release_id r) (SearchPage.release_title r)
    (SearchPage.date r) st (SearchPage.release_group r) (SearchPage.disambiguation r).

(** A release with status ["bootleg"] and nothing else. *)
Definition bareBootleg : SearchPage.MusicBrainzRelease :=
  SearchPage.mkRelease None None None (Some "bootleg") None None.

(** A release with status ["official"] and nothing else. *)
Definition bareOfficial : SearchPage.MusicBrainzRelease :=
  SearchPage.mkRelease None None None (Some "official") None None.

(** The three sort keys of a release in [pickCanonicalRelease]. *)
Definition keyTriple (r : SearchPage.MusicBrainzRelease) : string * Z * Z :=
  (SearchPage.dateKey r, SearchPage.getReleaseQualityPenalty r,
   SearchPage.getPrimaryReleaseGroupPenalty r).

(** [a] is before [b] in the lexicographic order of the key triples: date
    key first, quality penalty on a date tie, primacy penalty on a date and
    quality tie. *)
Definition keyLt (a b : SearchPage.MusicBrainzRelease) : Prop :=
  JS.lt (SearchPage.dateKey a) (SearchPage.dateKey b) = true \/
  (SearchPage.dateKey a = SearchPage.dateKey b /\
   SearchPage.getReleaseQualityPenalty a < SearchPage.getReleaseQualityPenalty b) \/
  (SearchPage.dateKey a = SearchPage.dateKey b /\
   SearchPage.getReleaseQualityPenalty a = SearchPage.getReleaseQualityPenalty b /\
   SearchPage.getPrimaryReleaseGroupPenalty a < SearchPage.getPrimaryReleaseGroupPenalty b).

(** [a] or [b] first, all the same: the three keys tie. *)
Definition keyLe (a b : SearchPage.MusicBrainzRelease) : Prop :=
  keyLt a b \/ keyTriple a = keyTriple b.

(** The state of the scan of [pickCanonicalRelease] whose running best is
    [b]. *)
Definition stateOf (b : SearchPage.MusicBrainzRelease) : SearchPage.PickState :=
  SearchPage.mkPick (Some b) (SearchPage.dateKey b)
    (SearchPage.getReleaseQualityPenalty b) (SearchPage.getPrimaryReleaseGroupPenalty b).

(** The decision of one turn of the scan: does [r] replace the running best
    [b]? *)
Definition beats (r b : SearchPage.MusicBrainzRelease) : bool :=
  if negb (SearchPage.dateKey r =? SearchPage.dateKey b)%string then
    JS.lt (SearchPage.dateKey r) (SearchPage.dateKey b)
  else if negb (SearchPage.getReleaseQualityPenalty r =? SearchPage.getReleaseQualityPenalty b)
  then SearchPage.getReleaseQualityPenalty r <? SearchPage.getReleaseQualityPenalty b
  else if negb (SearchPage.getPrimaryReleaseGroupPenalty r
                =? SearchPage.getPrimaryReleaseGroupPenalty b)
  then SearchPage.getPrimaryReleaseGroupPenalty r
       <? SearchPage.getPrimaryReleaseGroupPenalty b
  else false.

(** The running best after scanning [rs] from the running best [b]. *)
Definition scanFrom (b : SearchPage.MusicBrainzRelease)
  (rs : list SearchPage.MusicBrainzRelease) : SearchPage.MusicBrainzRelease :=
  fold_left (fun b r => if beats r b then r else b) rs b.

(** Three releases for the examples: dated 1965, dated 1965-12-03 on a
    compilation, and undated. *)
Definition rel1965 : SearchPage.MusicBrainzRelease :=
  SearchPage.mkRelease (Some "a") None (Some "1965") (Some "official") None None.

Definition rel19651203 : SearchPage.MusicBrainzRelease :=
  SearchPage.mkRelease (Some "b") None (Some "1965-12-03") (Some "official")
    (Some (SearchPage.mkGroup (Some "g") None None (Some ["compilation"]) None)) None.

Definition relUndated : SearchPage.MusicBrainzRelease :=
  SearchPage.mkRelease (Some "c") None None (Some "official") None None.

(** The artist credits of a recording, none when the field is absent. *)
Definition creditsOf (r : SearchPage.MusicBrainzRecording) : list MusicBrainzArtistCredit :=
  match SearchPage.artist_credit r with
  | Some cs => cs
  | None => []
  end.

(** One entry of [scored] must come before another: it has the artist match
    and the other has not, or they agree on the artist match and its
    earliest date key is the smaller one. *)
Definition mustPrecede (s t : SearchPage.Scored) : Prop :=
  (SearchPage.artistMatch s = true /\ SearchPage.artistMatch t = false) \/
  (SearchPage.artistMatch s = SearchPage.artistMatch t /\
   JS.lt (SearchPage.earliestDate s) (SearchPage.earliestDate t) = true).

(** No entry of the list is behind an entry it must precede. *)
Definition respects {A : Type} (R : A -> A -> Prop) (l : list A) : Prop :=
  ForallOrdPairs (fun a b => ~ R b a) l.

(** A decimal digit. *)
Definition isDigit (c : ascii) : bool :=
  let n := N_of_ascii c in ((48 <=? n) && (n <=? 57))%N.

(** Two digits that read as a number between [lo] and [hi]. *)
Definition twoDigitsIn (lo hi : N) (c1 c2 : ascii) : bool :=
  isDigit c1 && isDigit c2 &&
  (let v := (10 * (N_of_ascii c1 - 48) + (N_of_ascii c2 - 48))%N in
   (lo <=? v) && (v <=? hi))%N.

(** A real partial date: [YYYY], [YYYY-MM] or [YYYY-MM-DD], with a month
    from 01 to 12 and a day from 01 to 31. *)
Definition isPartialDate (s : string) : bool :=
  match s with
  | String y1 (String y2 (String y3 (String y4 rest))) =>
      isDigit y1 && isDigit y2 && isDigit y3 && isDigit y4 &&
      match rest with
      | EmptyString => true
      | String dash1 (String m1 (String m2 rest')) =>
          Ascii.eqb dash1 "-" && twoDigitsIn 1 12 m1 m2 &&
          match rest' with
          | EmptyString => true
          | String dash2 (String d1 (String d2 EmptyString)) =>
              Ascii.eqb dash2 "-" && twoDigitsIn 1 31 d1 d2
          | _ => false
          end
      | _ => false
      end
  | _ => false
  end.

(** Code-unit comparison, an instance of a collation for the examples. *)
Definition codeUnitCompare (a b : string) : Z :=
  match String.compare a b with
  | Lt => -1
  | Eq => 0
  | Gt => 1
  end.

(** Recordings for the examples: the two of the end-to-end scenario, one by
    another artist, and one without releases. *)
Definition beatles : option (list MusicBrainzArtistCredit) :=
  Some [mkCredit (Some "The Beatles") None].

Definition recR1 : SearchPage.MusicBrainzRecording :=
  SearchPage.mkRecording "r1" "Yesterday" beatles None (Some [rel1965]).

Definition recR2 : SearchPage.MusicBrainzRecording :=
  SearchPage.mkRecording "r2" "Yesterday" beatles None (Some [rel19651203]).

Definition recCover : SearchPage.MusicBrainzRecording :=
  SearchPage.mkRecording "r3" "Yesterday"
    (Some [mkCredit None (Some (mkArtist None (Some "Somebody Else")))]) None
    (Some [SearchPage.mkRelease None None (Some "1950") None None None]).

Definition recBare : SearchPage.MusicBrainzRecording :=
  SearchPage.mkRecording "r4" "Yesterday" beatles None None.

(** What escaping does to one code unit: a double quote gets a backslash in
    front, any other code unit stays. *)
Definition escapeChar (c : ascii) : string :=
  if Ascii.eqb c JS.dquote then String JS.backslash (String JS.dquote "")
  else String c "".

(** Escaping, code unit by code unit. *)
Fixpoint escapeEach (s : string) : string :=
  match s with
  | EmptyString => EmptyString
  | String c s' => escapeChar c ++ escapeEach s'
  end.

(** [v] between double quotes. *)
Definition quoted (v : string) : string :=
  String JS.dquote (v ++ String JS.dquote "").

(** The title [A "B"] of the third example of the query builder. *)
Definition titleAB : string :=
  "A " ++ quoted "B".

(** The message of a failed request that is not the 403 of the detail
    lookup. *)
Definition requestFailed (status : N) : string :=
  "Request failed (" ++ JS.numberToString status ++ ")".

(** Two releases of the recording page: one without a date, one whose date
    is the empty string. *)
Definition undatedFirst : RecordingPage.MusicBrainzRelease :=
  RecordingPage.mkRelease (Some "1") (Some "First") None.

Definition blankSecond : RecordingPage.MusicBrainzRelease :=
  RecordingPage.mkRelease (Some "2") (Some "Second") (Some "").

(** The same release with another date. *)
Definition withDate (d : option string) (r : SearchPage.MusicBrainzRelease)
  : SearchPage.MusicBrainzRelease :=
  SearchPage.mkRelease (SearchPage.release_id r) (SearchPage.release_title r)
    d (SearchPage.release_status r) (SearchPage.release_group r)
    (SearchPage.disambiguation r).

(** The same release with a blank date taken away. *)
Definition blankToAbsent (r : SearchPage.MusicBrainzRelease)
  : SearchPage.MusicBrainzRelease :=
  match SearchPage.date r with
  | Some d => if allWhiteSpace d then withDate None r else r
  | None => r
  end.

(** The state of the scan with its running best seen through [f]. *)
Definition mapBest (f : SearchPage.MusicBrainzRelease -> SearchPage.MusicBrainzRelease)
  (st : SearchPage.PickState) : SearchPage.PickState :=
  SearchPage.mkPick (option_map f (SearchPage.best st)) (SearchPage.bestDate st)
    (SearchPage.bestQuality st) (SearchPage.bestPrimary st).

(** A release of the search page whose date is white space only. *)
Definition relBlank : SearchPage.MusicBrainzRelease :=
  SearchPage.mkRelease (Some "d") None (Some "  ") (Some "official") None None.

(** One entry of [scored] is before another in the order of the four keys
    the comparator reads ahead of the id: artist match (true first), then
    earliest date key, then best quality, then best primacy. *)
Definition rankBefore (s t : SearchPage.Scored) : Prop :=
  (SearchPage.artistMatch s = true /\ SearchPage.artistMatch t = false) \/
  (SearchPage.artistMatch s = SearchPage.artistMatch t /\
   (JS.lt (SearchPage.earliestDate s) (SearchPage.earliestDate t) = true \/
    (SearchPage.earliestDate s = SearchPage.earliestDate t /\
     (SearchPage.s_bestQuality s < SearchPage.s_bestQuality t \/
      (SearchPage.s_bestQuality s = SearchPage.s_bestQuality t /\
       SearchPage.bestPrimaryPenalty s < SearchPage.bestPrimaryPenalty t))))).

(** The four keys tie. *)
Definition sameRank (s t : SearchPage.Scored) : Prop :=
  SearchPage.artistMatch s = SearchPage.artistMatch t /\
  SearchPage.earliestDate s = SearchPage.earliestDate t /\
  SearchPage.s_bestQuality s = SearchPage.s_bestQuality t /\
  SearchPage.bestPrimaryPenalty s = SearchPage.bestPrimaryPenalty t.

(** The releases of a recording, none when the field is absent. *)
Definition releasesOf (r : SearchPage.MusicBrainzRecording)
  : list SearchPage.MusicBrainzRelease :=
  match SearchPage.releases r with
  | Some rs => rs
  | None => []
  end.

(** The turn of the loop of [getEarliestReleaseDate]. *)
Definition earliestStep (best : string) (r : SearchPage.MusicBrainzRelease) : string :=
  let raw := SearchPage.rawDate r in
  if (String.length raw =? 0)%nat then best
  else
    let norm := SearchPage.normalizePartialDate raw in
    if JS.lt norm best then norm else best.

(** The turn of the loop of [rankRecordings] over the releases. *)
Definition bestStep (acc : Z * Z) (x : SearchPage.MusicBrainzRelease) : Z * Z :=
  let '(bq, bp) := acc in
  let q := SearchPage.getReleaseQualityPenalty x in
  let bq := if q <? bq then q else bq in
  let p := SearchPage.getPrimaryReleaseGroupPenalty x in
  let bp := if p <? bp then p else bp in
  (bq, bp).

(** A recording whose one release is dated like that of [recR2] and is on
    no compilation. *)
Definition recSameDay : SearchPage.MusicBrainzRecording :=
  SearchPage.mkRecording "r6" "Yesterday" beatles None
    (Some [SearchPage.mkRelease (Some "e") None (Some "1965-12-03") (Some "official")
             None None]).

(** A recording with two releases, for the examples. *)
Definition recTwo : SearchPage.MusicBrainzRecording :=
  SearchPage.mkRecording "r5" "Yesterday" beatles None (Some [rel19651203; rel1965]).

(** The recordings of a search response, none when the field is absent. *)
Definition recordingsOf (data : SearchPage.MusicBrainzRecordingResponse)
  : list SearchPage.MusicBrainzRecording :=
  match SearchPage.recordings data with
  | Some rs => rs
  | None => []
  end.

(** The summary [toCanonicalMatch] makes of a release group. *)
Definition summaryOf (g : SearchPage.ReleaseGroup) : SearchPage.CanonicalReleaseGroup :=
  SearchPage.mkCanonicalGroup (SearchPage.group_id g) (SearchPage.group_title g)
    (SearchPage.primary_type g) (SearchPage.secondary_types g).

(** A page state and responses for the examples. *)
Definition idlePage : SearchPage.PageState :=
  SearchPage.mkPage false (Some "old error") None None.

Definition okResponse : Response SearchPage.MusicBrainzRecordingResponse :=
  mkResponse true 200 (SearchPage.mkSearchResponse (Some [recCover; recR2]) None None).

Definition emptyResponse : Response SearchPage.MusicBrainzRecordingResponse :=
  mkResponse true 200 (SearchPage.mkSearchResponse None None None).

(** Every double quote of [s] comes right after a backslash; [prev] says
    whether the code unit in front of [s] is a backslash. *)
Fixpoint quotesEscaped (prev : bool) (s : string) : bool :=
  match s with
  | EmptyString => true
  | String c s' =>
      (if Ascii.eqb c JS.dquote then prev else true)
      && quotesEscaped (Ascii.eqb c JS.backslash) s'
  end.

(** Takes away the backslash in front of each double quote. *)
Fixpoint unescape (s : string) : string :=
  match s with
  | EmptyString => EmptyString
  | String c s' =>
      match s' with
      | String d s'' =>
          if Ascii.eqb c JS.backslash && Ascii.eqb d JS.dquote
          then String d (unescape s'')
          else String c (unescape s')
      | EmptyString => String c EmptyString
      end
  end.

(** The string does not start with a double quote. *)
Definition noLeadingQuote (s : string) : Prop :=
  match s with
  | EmptyString => True
  | String c _ => c <> JS.dquote
  end.

(** A recording whose credits are blank or nameless. *)
Definition recNameless : SearchPage.MusicBrainzRecording :=
  SearchPage.mkRecording "r7" "Yesterday"
    (Some [mkCredit (Some " ") (Some (mkArtist None (Some "Hidden")));
           mkCredit None None]) None None.


(** Releases of the recording page for the examples. *)
Definition dated1970 : RecordingPage.MusicBrainzRelease :=
  RecordingPage.mkRelease (Some "3") (Some "Later") (Some "1970").

Definition dated1965 : RecordingPage.MusicBrainzRelease :=
  RecordingPage.mkRelease (Some "4") (Some "Earlier") (Some "1965-08-06").

(** A release group and a release with every text the scorers read put in
    lower case (the ids and the date are not read as text). *)
Definition lowerGroup (g : SearchPage.ReleaseGroup) : SearchPage.ReleaseGroup :=
  SearchPage.mkGroup (SearchPage.group_id g)
    (option_map JS.toLowerCase (SearchPage.group_title g))
    (option_map JS.toLowerCase (SearchPage.primary_type g))
    (option_map (map JS.toLowerCase) (SearchPage.secondary_types g))
    (option_map JS.toLowerCase (SearchPage.group_disambiguation g)).

Definition lowerRelease (r : SearchPage.MusicBrainzRelease) : SearchPage.MusicBrainzRelease :=
  SearchPage.mkRelease (SearchPage.release_id r)
    (option_map JS.toLowerCase (SearchPage.release_title r))
    (SearchPage.date r)
    (option_map JS.toLowerCase (SearchPage.release_status r))
    (option_map lowerGroup (SearchPage.release_group r))
    (option_map JS.toLowerCase (SearchPage.disambiguation r)).

(** The value of a decimal digit. *)
Definition digitOf (c : ascii) : N := (N_of_ascii c - 48)%N.

(** Year, month and day of a partial date as one number, a month or a day
    that is not given counting as 0. *)
Definition dateValue (s : string) : N :=
  match s with
  | String y1 (String y2 (String y3 (String y4 rest))) =>
      let y := (1000 * digitOf y1 + 100 * digitOf y2 + 10 * digitOf y3 + digitOf y4)%N in
      match rest with
      | String _ (String m1 (String m2 rest')) =>
          let m := (10 * digitOf m1 + digitOf m2)%N in
          match rest' with
          | String _ (String d1 (String d2 _)) =>
              (10000 * y + 100 * m + (10 * digitOf d1 + digitOf d2))%N
          | _ => (10000 * y + 100 * m)%N
          end
      | _ => (10000 * y)%N
      end
  | _ => 0%N
  end.

(** The ten code units of a full date key, and the number it stands for. *)
Definition keyOf (y1 y2 y3 y4 m1 m2 d1 d2 : ascii) : string :=
  String y1 (String y2 (String y3 (String y4
    (String "-" (String m1 (String m2 (String "-" (String d1 (String d2 ""))))))))).

Definition valueOf (y1 y2 y3 y4 m1 m2 d1 d2 : ascii) : N :=
  (10000 * (1000 * digitOf y1 + 100 * digitOf y2 + 10 * digitOf y3 + digitOf y4)
   + 100 * (10 * digitOf m1 + digitOf m2) + (10 * digitOf d1 + digitOf d2))%N.

(** The [status], [primaryType] and [secondaryTypes] that
    [getReleaseQualityPenalty] reads off a release. *)
Definition statusOf (r : SearchPage.MusicBrainzRelease) : string :=
  match SearchPage.release_status r with
  | Some s => SearchPage.normalizeForCompare s
  | None => ""
  end.

Definition primaryTypeOf (r : SearchPage.MusicBrainzRelease) : string :=
  match SearchPage.groupField (SearchPage.release_group r) SearchPage.primary_type with
  | Some t => SearchPage.normalizeForCompare t
  | None => ""
  end.

Definition secondaryTypesOf (r : SearchPage.MusicBrainzRelease) : list string :=
  match SearchPage.groupField (SearchPage.release_group r) SearchPage.secondary_types with
  | Some ts => map SearchPage.normalizeForCompare ts
  | None => []
  end.

(** A release on an album with an id, for the examples. *)
Definition relAlbum : SearchPage.MusicBrainzRelease :=
  SearchPage.mkRelease (Some "f") (Some "Help!") (Some "1965-08-06") (Some "Official")
    (Some (SearchPage.mkGroup (Some "g1") (Some "Help!") (Some "Album") (Some []) None))
    None.

(* ------------------------------------------------------------------ *)
(** ** Facts about the string built-ins *)

Lemma str_length_app (a b : string) :
  String.length (a ++ b) = (String.length a + String.length b)%nat.
Proof.
  induction a as [|c a IH]; simpl; [reflexivity | now rewrite IH].
Qed.

Lemma str_app_nil_r (a : string) : a ++ "" = a.
Proof.
  induction a as [|c a IH]; simpl; [reflexivity | now rewrite IH].
Qed.

Lemma str_app_assoc (a b c : string) : (a ++ b) ++ c = a ++ (b ++ c).
Proof.
  induction a as [|x a IH]; simpl; [reflexivity | now rewrite IH].
Qed.

Lemma str_length_zero (s : string) : (String.length s =? 0)%nat = true <-> s = "".
Proof.
  destruct s; simpl; split; intro H; try reflexivity; discriminate.
Qed.

Lemma str_length_pos (s : string) : (0 <? String.length s)%nat = true <-> s <> "".
Proof.
  destruct s; simpl; split; intro H; try reflexivity; try discriminate; try congruence.
Qed.

Lemma ascii_compare_refl (c : ascii) : Ascii.compare c c = Eq.
Proof. unfold Ascii.compare. apply N.compare_refl. Qed.

Lemma ascii_compare_lt_trans (a b c : ascii) :
  Ascii.compare a b = Lt -> Ascii.compare b c = Lt -> Ascii.compare a c = Lt.
Proof.
  unfold Ascii.compare. rewrite !N.compare_lt_iff. apply N.lt_trans.
Qed.

Lemma str_compare_refl (s : string) : String.compare s s = Eq.
Proof.
  induction s as [|c s IH]; simpl; [reflexivity|].
  now rewrite ascii_compare_refl.
Qed.

Lemma str_compare_lt_trans (s t u : string) :
  String.compare s t = Lt -> String.compare t u = Lt -> String.compare s u = Lt.
Proof.
  revert t u. induction s as [|a s IH]; intros [|b t] [|c u]; simpl; try congruence.
  destruct (Ascii.compare a b) eqn:Hab; try discriminate;
    destruct (Ascii.compare b c) eqn:Hbc; try discriminate; intros H1 H2.
  - apply Ascii.compare_eq_iff in Hab, Hbc. subst.
    rewrite ascii_compare_refl. eauto.
  - apply Ascii.compare_eq_iff in Hab. subst. now rewrite Hbc.
  - apply Ascii.compare_eq_iff in Hbc. subst. now rewrite Hab.
  - now rewrite (ascii_compare_lt_trans _ _ _ Hab Hbc).
Qed.

Lemma lt_irrefl (s : string) : JS.lt s s = false.
Proof. unfold JS.lt, String.ltb. now rewrite str_compare_refl. Qed.

Lemma lt_trans (s t u : string) :
  JS.lt s t = true -> JS.lt t u = true -> JS.lt s u = true.
Proof.
  unfold JS.lt, String.ltb.
  destruct (String.compare s t) eqn:H1; try discriminate.
  destruct (String.compare t u) eqn:H2; try discriminate.
  now rewrite (str_compare_lt_trans _ _ _ H1 H2).
Qed.

Lemma lt_asym (s t : string) : JS.lt s t = true -> JS.lt t s = false.
Proof.
  unfold JS.lt, String.ltb. rewrite (String.compare_antisym t s).
  destruct (String.compare s t); simpl; congruence.
Qed.

Lemma lt_total (s t : string) : s <> t -> JS.lt s t = true \/ JS.lt t s = true.
Proof.
  intro Hne. unfold JS.lt, String.ltb. rewrite (String.compare_antisym t s).
  destruct (String.compare s t) eqn:H; simpl; auto.
  apply String.compare_eq_iff in H. congruence.
Qed.

Lemma lt_neq (s t : string) : JS.lt s t = true -> s <> t.
Proof. intros H ->. rewrite lt_irrefl in H. discriminate. Qed.

(** [a <= b] read as [not (b < a)]. *)
Lemma le_lt_trans (s t u : string) :
  JS.lt t s = false -> JS.lt t u = true -> JS.lt s u = true.
Proof.
  intros Hst Htu. destruct (String.eqb_spec s t) as [->|Hne]; [assumption|].
  destruct (lt_total s t Hne) as [H|H]; [|congruence].
  eapply lt_trans; eassumption.
Qed.

Lemma lt_le_trans (s t u : string) :
  JS.lt s t = true -> JS.lt u t = false -> JS.lt s u = true.
Proof.
  intros Hst Htu. destruct (String.eqb_spec t u) as [<-|Hne]; [assumption|].
  destruct (lt_total t u Hne) as [H|H]; [|congruence].
  eapply lt_trans; eassumption.
Qed.

(** *** Trimming *)

Lemma trimEnd_idem (s : string) : JS.trimEnd (JS.trimEnd s) = JS.trimEnd s.
Proof.
  induction s as [|c s IH]; simpl; [reflexivity|].
  destruct (JS.trimEnd s) as [|d t] eqn:Ht.
  - destruct (JS.isWhiteSpace c) eqn:Hc; simpl; [reflexivity|]. now rewrite Hc.
  - simpl. simpl in IH. destruct (JS.trimEnd t) as [|e t'] eqn:Ht'.
    + destruct (JS.isWhiteSpace d) eqn:Hd; [discriminate|].
      injection IH as <-. reflexivity.
    + now rewrite IH.
Qed.

Lemma trimStart_noLeadingSpace (s : string) : noLeadingSpace (JS.trimStart s).
Proof.
  induction s as [|c s IH]; simpl; [exact I|].
  destruct (JS.isWhiteSpace c) eqn:Hc; [assumption | exact Hc].
Qed.

Lemma trimStart_fixed (s : string) : noLeadingSpace s -> JS.trimStart s = s.
Proof.
  destruct s as [|c s]; simpl; [reflexivity|]. now intros ->.
Qed.

Lemma trimEnd_noLeadingSpace (s : string) :
  noLeadingSpace s -> noLeadingSpace (JS.trimEnd s).
Proof.
  destruct s as [|c s]; simpl; [trivial|]. intro Hc.
  destruct (JS.trimEnd s); [rewrite Hc|]; exact Hc.
Qed.

Lemma trim_idem (s : string) : JS.trim (JS.trim s) = JS.trim s.
Proof.
  unfold JS.trim.
  rewrite (trimStart_fixed (JS.trimEnd (JS.trimStart s))).
  - apply trimEnd_idem.
  - apply trimEnd_noLeadingSpace, trimStart_noLeadingSpace.
Qed.

Lemma trimEnd_empty (s : string) : JS.trimEnd s = "" <-> allWhiteSpace s = true.
Proof.
  induction s as [|c s IH]; simpl; [tauto|].
  destruct (JS.trimEnd s) as [|d t].
  - destruct (JS.isWhiteSpace c); simpl.
    + split; intros _; [now apply IH | reflexivity].
    + split; discriminate.
  - split; [discriminate|]. intros H. apply andb_true_iff in H as [_ H].
    apply IH in H. discriminate.
Qed.

Lemma trim_empty (s : string) : JS.trim s = "" <-> allWhiteSpace s = true.
Proof.
  unfold JS.trim. rewrite trimEnd_empty.
  induction s as [|c s IH]; simpl; [tauto|].
  destruct (JS.isWhiteSpace c) eqn:Hc; simpl; [exact IH|].
  rewrite Hc. simpl. tauto.
Qed.

Lemma toLowerCase_empty (s : string) : JS.toLowerCase s = "" <-> s = "".
Proof. destruct s; simpl; split; congruence. Qed.

(* ------------------------------------------------------------------ *)
(** ** Date Normalizer *)

Lemma normalizePartialDate_same (s : string) :
  RecordingPage.normalizePartialDate s = SearchPage.normalizePartialDate s.
Proof. reflexivity. Qed.

Lemma normalizePartialDate_other (s : string) :
  String.length s <> 4%nat -> String.length s <> 7%nat ->
  SearchPage.normalizePartialDate s = s.
Proof.
  intros H4 H7. unfold SearchPage.normalizePartialDate.
  apply Nat.eqb_neq in H4, H7. now rewrite H4, H7.
Qed.

(** C6.  Both copies of [normalizePartialDate] (search page and recording
    page) are the same function; it is idempotent on every input of length
    10, appends ["-00-00"] to every input of length 4 and ["-00"] to every
    input of length 7, so that every input of length 4, 7 or 10 has an
    output of length 10, and it returns every input of another length
    unchanged. *)
Theorem normalizePartialDate_spec (s : string) :
  RecordingPage.normalizePartialDate s = SearchPage.normalizePartialDate s /\
  (String.length s = 10%nat ->
   SearchPage.normalizePartialDate (SearchPage.normalizePartialDate s)
   = SearchPage.normalizePartialDate s) /\
  (String.length s = 4%nat -> SearchPage.normalizePartialDate s = s ++ "-00-00") /\
  (String.length s = 7%nat -> SearchPage.normalizePartialDate s = s ++ "-00") /\
  (String.length s = 4%nat \/ String.length s = 7%nat \/ String.length s = 10%nat ->
   String.length (SearchPage.normalizePartialDate s) = 10%nat) /\
  (String.length s <> 4%nat -> String.length s <> 7%nat ->
   SearchPage.normalizePartialDate s = s).
Proof.
  split; [reflexivity|]. split; [|split; [|split; [|split]]].
  - intro H. rewrite (normalizePartialDate_other s) by lia.
    apply normalizePartialDate_other; lia.
  - intro H. unfold SearchPage.normalizePartialDate. now rewrite H.
  - intro H. unfold SearchPage.normalizePartialDate. now rewrite H.
  - intros [H|[H|H]]; unfold SearchPage.normalizePartialDate; rewrite H; simpl;
      try rewrite str_length_app; try rewrite H; reflexivity.
  - apply normalizePartialDate_other.
Qed.

Lemma normalizePartialDate_spec_witness :
  SearchPage.normalizePartialDate "1965" = "1965-00-00" /\
  SearchPage.normalizePartialDate "1965-12" = "1965-12-00" /\
  SearchPage.normalizePartialDate (SearchPage.normalizePartialDate "1965-12-03")
  = SearchPage.normalizePartialDate "1965-12-03" /\
  String.length (SearchPage.normalizePartialDate "1965") = 10%nat /\
  SearchPage.normalizePartialDate "65" = "65".
Proof.
  pose proof (normalizePartialDate_spec "1965") as (_ & _ & H4 & _ & H4l & _).
  pose proof (normalizePartialDate_spec "1965-12") as (_ & _ & _ & H7 & _).
  pose proof (normalizePartialDate_spec "1965-12-03") as (_ & H10 & _).
  pose proof (normalizePartialDate_spec "65") as (_ & _ & _ & _ & _ & Ho).
  split; [|split; [|split; [|split]]].
  - apply H4; reflexivity.
  - apply H7; reflexivity.
  - apply H10; reflexivity.
  - apply H4l; left; reflexivity.
  - apply Ho; simpl; lia.
Defined.

(* ------------------------------------------------------------------ *)
(** ** The two scorers *)

Ltac split_ifs :=
  repeat match goal with
    | |- context [if ?b then _ else _] => destruct b
    end.

Lemma getReleaseQualityPenalty_bounds (r : SearchPage.MusicBrainzRelease) :
  0 <= SearchPage.getReleaseQualityPenalty r <= 208.
Proof.
  unfold SearchPage.getReleaseQualityPenalty. cbv zeta. split_ifs; lia.
Qed.

Lemma getPrimaryReleaseGroupPenalty_bounds (r : SearchPage.MusicBrainzRelease) :
  0 <= SearchPage.getPrimaryReleaseGroupPenalty r <= 15.
Proof.
  unfold SearchPage.getPrimaryReleaseGroupPenalty. cbv zeta. split_ifs; lia.
Qed.

(** The status of [r], as [getReleaseQualityPenalty] reads it. *)
Lemma status_contribution (r : SearchPage.MusicBrainzRelease) (s : string) :
  SearchPage.release_status r = Some s ->
  SearchPage.getReleaseQualityPenalty r
  = (if (SearchPage.normalizeForCompare s =? "bootleg")%string then 100
     else if (0 <? String.length (SearchPage.normalizeForCompare s))%nat
             && negb (SearchPage.normalizeForCompare s =? "official")%string
          then 15 else 0)
    + SearchPage.getReleaseQualityPenalty (withStatus None r).
Proof.
  intro Hs. destruct r as [i t d st g dis]. simpl in Hs. subst st.
  unfold SearchPage.getReleaseQualityPenalty, withStatus, SearchPage.qualityText.
  cbn [SearchPage.release_status SearchPage.release_group SearchPage.release_title
       SearchPage.disambiguation SearchPage.release_id SearchPage.date].
  cbv zeta. change ("" =? "bootleg")%string with false.
  change (0 <? String.length "")%nat with false. cbn [andb].
  split_ifs; lia.
Qed.

(** No release group, no reissue wording: only the status counts. *)
Lemma quality_of_bare_release (r : SearchPage.MusicBrainzRelease) :
  SearchPage.release_group r = None ->
  SearchPage.includesAny (SearchPage.qualityText r) SearchPage.reissueTerms = false ->
  SearchPage.getReleaseQualityPenalty (withStatus None r) = 0.
Proof.
  intros Hg Ht. destruct r as [i t d st g dis]. simpl in Hg. subst g.
  unfold SearchPage.getReleaseQualityPenalty, withStatus.
  unfold SearchPage.qualityText in *.
  cbn [SearchPage.release_status SearchPage.release_group SearchPage.release_title
       SearchPage.disambiguation SearchPage.release_id SearchPage.date] in *.
  cbv zeta. rewrite Ht. reflexivity.
Qed.

(** C1 as the code has it.  The status contributes through an [if] / [else
    if]: a release whose status is ["bootleg"] under case-insensitive,
    trimmed comparison gets the +100 and not the +15, on top of the
    contributions of the conditions that do not read the status; the +15 is
    for a status that is non-empty and neither ["official"] nor ["bootleg"].
    With no release-group and no reissue wording a bootleg scores exactly
    100. *)
Theorem bootleg_quality_penalty (r : SearchPage.MusicBrainzRelease) (s : string) :
  SearchPage.release_status r = Some s ->
  (SearchPage.normalizeForCompare s = "bootleg" ->
   SearchPage.getReleaseQualityPenalty r
   = 100 + SearchPage.getReleaseQualityPenalty (withStatus None r) /\
   (SearchPage.release_group r = None ->
    SearchPage.includesAny (SearchPage.qualityText r) SearchPage.reissueTerms = false ->
    SearchPage.getReleaseQualityPenalty r = 100)) /\
  (SearchPage.normalizeForCompare s <> "" ->
   SearchPage.normalizeForCompare s <> "official" ->
   SearchPage.normalizeForCompare s <> "bootleg" ->
   SearchPage.getReleaseQualityPenalty r
   = 15 + SearchPage.getReleaseQualityPenalty (withStatus None r)).
Proof.
  intro Hs. rewrite (status_contribution r s Hs). split.
  - intro Hb. rewrite Hb. simpl. split; [reflexivity|].
    intros Hg Ht. now rewrite quality_of_bare_release.
  - intros He Ho Hb.
    apply String.eqb_neq in Ho, Hb. apply str_length_pos in He.
    now rewrite Hb, He, Ho.
Qed.

Lemma bootleg_quality_penalty_witness :
  SearchPage.getReleaseQualityPenalty bareBootleg = 100 /\
  SearchPage.getReleaseQualityPenalty
    (SearchPage.mkRelease None None None (Some " Promotion") None None)
  = 15 + 0.
Proof.
  split.
  - apply (bootleg_quality_penalty bareBootleg "bootleg"); reflexivity.
  - apply (bootleg_quality_penalty
             (SearchPage.mkRelease None None None (Some " Promotion") None None)
             " Promotion"); [reflexivity | vm_compute; discriminate ..].
Defined.

(** C1 as the claim states it fails: a release with status ["bootleg"], no
    release-group and no reissue wording does not score 115. *)
Lemma bootleg_is_not_115 :
  SearchPage.release_status bareBootleg = Some "bootleg" /\
  SearchPage.normalizeForCompare "bootleg" = "bootleg" /\
  SearchPage.release_group bareBootleg = None /\
  SearchPage.includesAny (SearchPage.qualityText bareBootleg) SearchPage.reissueTerms
  = false /\
  SearchPage.getReleaseQualityPenalty bareBootleg <> 115.
Proof. repeat split. vm_compute. discriminate. Qed.

(** The free text of the primacy scorer is that of the quality scorer when
    there is no release group, and its terms are among the reissue terms. *)
Lemma primacy_text_of_bare_release (r : SearchPage.MusicBrainzRelease) :
  SearchPage.release_group r = None ->
  SearchPage.includesAny (SearchPage.qualityText r) SearchPage.reissueTerms = false ->
  SearchPage.includesAny (SearchPage.primacyText r) SearchPage.secondaryTerms = false.
Proof.
  intros Hg. unfold SearchPage.qualityText, SearchPage.primacyText. rewrite Hg.
  cbn [SearchPage.groupField].
  replace (SearchPage.nonBlankStrings
             [SearchPage.release_title r; SearchPage.disambiguation r; None; None])
    with (SearchPage.nonBlankStrings
            [SearchPage.release_title r; SearchPage.disambiguation r; None]).
  2:{ unfold SearchPage.nonBlankStrings. simpl. now rewrite !app_nil_r. }
  unfold SearchPage.includesAny, SearchPage.reissueTerms, SearchPage.secondaryTerms.
  cbn [existsb]. intro H. repeat (apply orb_false_iff in H as [? H]).
  repeat (apply orb_false_iff; split; try assumption).
Qed.

(** C2 as the code has it.  Both penalties are non-negative; a release with
    status ["official"], no release-group and no reissue wording scores 0 on
    quality and 5 on primacy, the absent release-group counting as a group
    without an id. *)
Theorem penalties_nonneg_and_official (r : SearchPage.MusicBrainzRelease) :
  0 <= SearchPage.getReleaseQualityPenalty r /\
  0 <= SearchPage.getPrimaryReleaseGroupPenalty r /\
  (forall s,
     SearchPage.release_status r = Some s ->
     SearchPage.normalizeForCompare s = "official" ->
     SearchPage.release_group r = None ->
     SearchPage.includesAny (SearchPage.qualityText r) SearchPage.reissueTerms = false ->
     SearchPage.getReleaseQualityPenalty r = 0 /\
     SearchPage.getPrimaryReleaseGroupPenalty r = 5).
Proof.
  split; [apply getReleaseQualityPenalty_bounds|].
  split; [apply getPrimaryReleaseGroupPenalty_bounds|].
  intros s Hs Ho Hg Ht. split.
  - rewrite (status_contribution r s Hs), Ho. simpl.
    now apply quality_of_bare_release.
  - unfold SearchPage.getPrimaryReleaseGroupPenalty. cbv zeta.
    rewrite (primacy_text_of_bare_release r Hg Ht). rewrite Hg. reflexivity.
Qed.

Lemma penalties_nonneg_and_official_witness :
  SearchPage.getReleaseQualityPenalty bareOfficial = 0 /\
  SearchPage.getPrimaryReleaseGroupPenalty bareOfficial = 5.
Proof.
  apply (penalties_nonneg_and_official bareOfficial) with (s := "official");
    reflexivity.
Defined.

(** C2 as the claim states it fails: an official release with no
    release-group and no reissue wording does not score 0 on primacy. *)
Lemma official_primacy_is_not_0 :
  SearchPage.release_status bareOfficial = Some "official" /\
  SearchPage.normalizeForCompare "official" = "official" /\
  SearchPage.release_group bareOfficial = None /\
  SearchPage.includesAny (SearchPage.qualityText bareOfficial) SearchPage.reissueTerms
  = false /\
  SearchPage.includesAny (SearchPage.primacyText bareOfficial) SearchPage.secondaryTerms
  = false /\
  SearchPage.getPrimaryReleaseGroupPenalty bareOfficial <> 0.
Proof. repeat split. vm_compute. discriminate. Qed.

(* ------------------------------------------------------------------ *)
(** ** Canonical Release Selector *)

Lemma keyLt_irrefl (a : SearchPage.MusicBrainzRelease) : ~ keyLt a a.
Proof.
  unfold keyLt. intros [H|[[_ H]|(_ & _ & H)]]; try lia.
  rewrite lt_irrefl in H. discriminate.
Qed.

Lemma keyLt_trans (a b c : SearchPage.MusicBrainzRelease) :
  keyLt a b -> keyLt b c -> keyLt a c.
Proof.
  unfold keyLt.
  intros [H1|[[E1 H1]|(E1 & F1 & H1)]] [H2|[[E2 H2]|(E2 & F2 & H2)]];
    try (left; congruence);
    try (left; eapply lt_trans; eassumption);
    try (right; left; split; [congruence | lia]);
    right; right; repeat split; try congruence; lia.
Qed.

Lemma keyLt_asym (a b : SearchPage.MusicBrainzRelease) : keyLt a b -> ~ keyLt b a.
Proof. intros H1 H2. exact (keyLt_irrefl a (keyLt_trans a b a H1 H2)). Qed.

Lemma keyLt_keyLe_trans (a b c : SearchPage.MusicBrainzRelease) :
  keyLt a b -> keyLe b c -> keyLt a c.
Proof.
  intros H [H'|E]; [eapply keyLt_trans; eassumption|].
  unfold keyTriple in E. injection E as E1 E2 E3.
  unfold keyLt in *. now rewrite <- E1, <- E2, <- E3.
Qed.

Lemma keyLe_keyLt_trans (a b c : SearchPage.MusicBrainzRelease) :
  keyLe a b -> keyLt b c -> keyLt a c.
Proof.
  intros [H'|E] H; [eapply keyLt_trans; eassumption|].
  unfold keyTriple in E. injection E as E1 E2 E3.
  unfold keyLt in *. now rewrite E1, E2, E3.
Qed.

Lemma beats_keyLt (r b : SearchPage.MusicBrainzRelease) :
  beats r b = true <-> keyLt r b.
Proof.
  unfold beats, keyLt.
  destruct (String.eqb_spec (SearchPage.dateKey r) (SearchPage.dateKey b)) as [Ed|Nd];
    cbn [negb].
  - rewrite Ed, lt_irrefl.
    destruct (Z.eqb_spec (SearchPage.getReleaseQualityPenalty r)
                (SearchPage.getReleaseQualityPenalty b)) as [Eq|Nq]; cbn [negb].
    + destruct (Z.eqb_spec (SearchPage.getPrimaryReleaseGroupPenalty r)
                  (SearchPage.getPrimaryReleaseGroupPenalty b)) as [Ep|Np]; cbn [negb].
      * split; [discriminate|]. intros [H|[[_ H]|(_ & _ & H)]]; first [lia | discriminate].
      * rewrite Z.ltb_lt. split; [intro; right; right; auto|].
        intros [H|[[_ H]|(_ & _ & H)]]; first [lia | discriminate].
    + rewrite Z.ltb_lt. split; [intro; right; left; auto|].
      intros [H|[[_ H]|(_ & H & _)]]; first [lia | discriminate].
  - split; [intro; left; assumption|].
    intros [H|[[H _]|(H & _)]]; congruence.
Qed.

Lemma not_beats_keyLe (r b : SearchPage.MusicBrainzRelease) :
  beats r b = false -> keyLe b r.
Proof.
  unfold beats, keyLe, keyLt, keyTriple.
  destruct (String.eqb_spec (SearchPage.dateKey r) (SearchPage.dateKey b)) as [Ed|Nd];
    cbn [negb].
  - rewrite Ed.
    destruct (Z.eqb_spec (SearchPage.getReleaseQualityPenalty r)
                (SearchPage.getReleaseQualityPenalty b)) as [Eq|Nq]; cbn [negb].
    + rewrite Eq.
      destruct (Z.eqb_spec (SearchPage.getPrimaryReleaseGroupPenalty r)
                  (SearchPage.getPrimaryReleaseGroupPenalty b)) as [Ep|Np]; cbn [negb].
      * intros _. right. now rewrite Ep.
      * rewrite Z.ltb_ge. intro. left. right. right. repeat split. lia.
    + rewrite Z.ltb_ge. intro. left. right. left. split; [reflexivity | lia].
  - intro H. left. left.
    destruct (lt_total _ _ Nd) as [H'|H']; [congruence | assumption].
Qed.

Lemma pickStep_stateOf (b r : SearchPage.MusicBrainzRelease) :
  SearchPage.pickStep (stateOf b) r = stateOf (if beats r b then r else b).
Proof.
  unfold SearchPage.pickStep, stateOf, beats.
  cbn [SearchPage.best SearchPage.bestDate SearchPage.bestQuality SearchPage.bestPrimary].
  destruct (String.eqb_spec (SearchPage.dateKey r) (SearchPage.dateKey b)) as [Ed|Nd];
    cbn [negb].
  - destruct (Z.eqb_spec (SearchPage.getReleaseQualityPenalty r)
                (SearchPage.getReleaseQualityPenalty b)) as [Eq|Nq]; cbn [negb].
    + destruct (Z.eqb_spec (SearchPage.getPrimaryReleaseGroupPenalty r)
                  (SearchPage.getPrimaryReleaseGroupPenalty b)) as [Ep|Np]; cbn [negb].
      * reflexivity.
      * destruct (_ <? _); [now rewrite Ed, Eq | reflexivity].
    + destruct (_ <? _); [now rewrite Ed | reflexivity].
  - destruct (JS.lt _ _); reflexivity.
Qed.

Lemma pick_scan (rs : list SearchPage.MusicBrainzRelease) :
  forall b, fold_left SearchPage.pickStep rs (stateOf b) = stateOf (scanFrom b rs).
Proof.
  induction rs as [|r rs IH]; intro b; [reflexivity|].
  cbn [fold_left]. rewrite pickStep_stateOf, IH. reflexivity.
Qed.

Lemma pickCanonicalRelease_cons (r : SearchPage.MusicBrainzRelease)
  (rs : list SearchPage.MusicBrainzRelease) :
  SearchPage.pickCanonicalRelease (Some (r :: rs)) = Some (scanFrom r rs).
Proof.
  unfold SearchPage.pickCanonicalRelease. cbn [fold_left].
  change (SearchPage.pickStep _ r) with (stateOf r).
  now rewrite pick_scan.
Qed.

(** The scan returns the first release of minimal key triple. *)
Lemma scanFrom_first_min (rs : list SearchPage.MusicBrainzRelease) :
  forall b, exists l1 l2,
    b :: rs = (l1 ++ scanFrom b rs :: l2)%list /\
    Forall (keyLt (scanFrom b rs)) l1 /\
    Forall (keyLe (scanFrom b rs)) l2.
Proof.
  induction rs as [|r rs IH] using rev_ind; intro b.
  - exists [], []. repeat split; constructor.
  - destruct (IH b) as (l1 & l2 & Hsplit & H1 & H2).
    unfold scanFrom in *. rewrite fold_left_app. cbn [fold_left].
    set (m := fold_left _ rs b) in *.
    destruct (beats r m) eqn:Hb.
    + apply beats_keyLt in Hb.
      exists (b :: rs), []. split; [reflexivity|]. split; [|constructor].
      rewrite Hsplit. apply Forall_app. split.
      * eapply Forall_impl; [|exact H1]. intros x Hx.
        eapply keyLt_trans; eassumption.
      * constructor; [assumption|].
        eapply Forall_impl; [|exact H2]. intros x Hx.
        eapply keyLt_keyLe_trans; eassumption.
    + apply not_beats_keyLe in Hb.
      exists l1, (l2 ++ [r])%list. split; [|split].
      * rewrite app_comm_cons, Hsplit, <- app_assoc. reflexivity.
      * assumption.
      * apply Forall_app. split; [assumption | constructor; [assumption | constructor]].
Qed.

Lemma pickCanonicalRelease_first_min (rs : list SearchPage.MusicBrainzRelease) :
  rs <> [] ->
  exists l1 m l2,
    rs = (l1 ++ m :: l2)%list /\
    SearchPage.pickCanonicalRelease (Some rs) = Some m /\
    Forall (keyLt m) l1 /\ Forall (keyLe m) l2.
Proof.
  destruct rs as [|r rs]; [congruence|]. intros _.
  destruct (scanFrom_first_min rs r) as (l1 & l2 & Hs & H1 & H2).
  exists l1, (scanFrom r rs), l2.
  rewrite pickCanonicalRelease_cons. auto.
Qed.

(** With pairwise distinct key triples the winner is strictly before every
    other release. *)
Lemma pickCanonicalRelease_strict_min (rs : list SearchPage.MusicBrainzRelease)
  (m : SearchPage.MusicBrainzRelease) :
  NoDup (map keyTriple rs) ->
  SearchPage.pickCanonicalRelease (Some rs) = Some m ->
  In m rs /\ forall x, In x rs -> x = m \/ keyLt m x.
Proof.
  intros Hnd Hm. destruct rs as [|r rs]; [discriminate|].
  destruct (pickCanonicalRelease_first_min (r :: rs)) as (l1 & m' & l2 & Hs & Hp & H1 & H2);
    [discriminate|].
  rewrite Hp in Hm. injection Hm as ->. rewrite Hs in *.
  split; [apply in_elt|].
  intros x Hx. apply in_app_or in Hx as [Hx|[Hx|Hx]]; auto.
  - right. rewrite Forall_forall in H1. auto.
  - rewrite Forall_forall in H2. destruct (H2 x Hx) as [Hlt|He]; [auto|].
    exfalso. rewrite map_app in Hnd. cbn [map] in Hnd.
    apply NoDup_remove_2 in Hnd. apply Hnd, in_or_app. right.
    rewrite He. now apply in_map.
Qed.

(** C3.  [pickCanonicalRelease] yields nothing for an absent or empty list.
    On a non-empty list it yields the first release, in input order, whose
    key triple is minimal in the lexicographic order [keyLt] (date key, then
    quality penalty on a date tie, then primacy penalty on a date and
    quality tie): every release before the winner is strictly after it in
    that order, every release behind it is after it or ties on all three
    keys.  When the key triples are pairwise distinct the winner does not
    depend on the order of the list.  (Being a function of the list, the
    selector returns the same release whenever it is applied to the same
    list.) *)
Theorem pickCanonicalRelease_lexicographic :
  SearchPage.pickCanonicalRelease None = None /\
  SearchPage.pickCanonicalRelease (Some []) = None /\
  (forall rs, rs <> [] ->
     exists l1 m l2,
       rs = (l1 ++ m :: l2)%list /\
       SearchPage.pickCanonicalRelease (Some rs) = Some m /\
       Forall (keyLt m) l1 /\ Forall (keyLe m) l2) /\
  (forall rs rs',
     Permutation rs rs' -> NoDup (map keyTriple rs) ->
     SearchPage.pickCanonicalRelease (Some rs') = SearchPage.pickCanonicalRelease (Some rs)).
Proof.
  split; [reflexivity|]. split; [reflexivity|].
  split; [exact pickCanonicalRelease_first_min|].
  intros rs rs' Hperm Hnd.
  assert (Hnd' : NoDup (map keyTriple rs')).
  { eapply Permutation_NoDup; [|exact Hnd]. now apply Permutation_map. }
  destruct rs as [|r rs].
  - apply Permutation_nil in Hperm. now subst.
  - destruct rs' as [|r' rs'].
    { apply Permutation_sym, Permutation_nil in Hperm. discriminate. }
    destruct (pickCanonicalRelease_strict_min (r :: rs) (scanFrom r rs) Hnd
                (pickCanonicalRelease_cons r rs)) as [Hin Hmin].
    destruct (pickCanonicalRelease_strict_min (r' :: rs') (scanFrom r' rs') Hnd'
                (pickCanonicalRelease_cons r' rs')) as [Hin' Hmin'].
    rewrite !pickCanonicalRelease_cons. f_equal.
    destruct (Hmin (scanFrom r' rs')) as [E|L].
    { eapply Permutation_in; [apply Permutation_sym; exact Hperm | exact Hin']. }
    { exact E. }
    destruct (Hmin' (scanFrom r rs)) as [E'|L'].
    { eapply Permutation_in; [exact Hperm | exact Hin]. }
    { now symmetry. }
    exfalso. exact (keyLt_asym _ _ L L').
Qed.

Lemma pickCanonicalRelease_lexicographic_witness :
  SearchPage.pickCanonicalRelease (Some [relUndated; rel19651203; rel1965])
  = SearchPage.pickCanonicalRelease (Some [rel1965; rel19651203; relUndated]).
Proof.
  destruct pickCanonicalRelease_lexicographic as (_ & _ & _ & H).
  apply H.
  - apply Permutation_rev with (l := [rel1965; rel19651203; relUndated]).
  - repeat constructor; vm_compute; intuition discriminate.
Defined.

(* ------------------------------------------------------------------ *)
(** ** The sort *)

Section SortFacts.
Context {A : Type} (cmp : A -> A -> Z).

Lemma insert_perm (x : A) (l : list A) : Permutation (x :: l) (JS.insert cmp x l).
Proof.
  induction l as [|y l IH]; simpl; [reflexivity|].
  destruct (cmp x y <=? 0); [reflexivity|].
  rewrite perm_swap. now constructor.
Qed.

Lemma sort_perm (l : list A) : Permutation l (JS.sort cmp l).
Proof.
  induction l as [|x l IH]; simpl; [constructor|].
  rewrite <- insert_perm. now constructor.
Qed.

Lemma sort_length (l : list A) : List.length (JS.sort cmp l) = List.length l.
Proof. symmetry. apply Permutation_length, sort_perm. Qed.

(** A relation [R] of entries that the comparator always orders, whatever
    it does with the other pairs. *)
Variable R : A -> A -> Prop.
Hypothesis R_before : forall a b, R a b -> cmp a b < 0.
Hypothesis R_after : forall a b, R a b -> 0 < cmp b a.
Hypothesis R_through : forall a b c, R a b -> cmp b c <= 0 -> R a c.

Lemma insert_respects (x : A) (l : list A) :
  respects R l -> respects R (JS.insert cmp x l).
Proof.
  unfold respects. induction 1 as [|y l Hy Hl IH]; simpl.
  - constructor; constructor.
  - destruct (Z.leb_spec (cmp x y) 0) as [Hle|Hgt].
    + constructor; [|now constructor].
      constructor.
      * intro HR. apply R_after in HR. lia.
      * rewrite Forall_forall in *. intros z Hz HR.
        exact (Hy z Hz (R_through _ _ _ HR Hle)).
    + constructor; [|exact IH].
      eapply Permutation_Forall; [apply insert_perm|].
      constructor; [|exact Hy].
      intro HR. apply R_before in HR. lia.
Qed.

Lemma sort_respects (l : list A) : respects R (JS.sort cmp l).
Proof.
  induction l as [|x l IH]; simpl; [constructor|].
  now apply insert_respects.
Qed.

Lemma respects_positions (l : list A) :
  respects R l ->
  forall i j a b,
    nth_error l i = Some a -> nth_error l j = Some b -> R a b -> (i < j)%nat.
Proof.
  unfold respects. induction 1 as [|y l Hy Hl IH]; intros i j a b Hi Hj HR.
  - destruct i; discriminate.
  - destruct i as [|i], j as [|j]; simpl in Hi, Hj.
    + injection Hi as ->. injection Hj as ->.
      pose proof (R_before _ _ HR). pose proof (R_after _ _ HR). lia.
    + lia.
    + injection Hj as ->. apply nth_error_In in Hi.
      rewrite Forall_forall in Hy. now destruct (Hy a Hi).
    + apply -> Nat.succ_lt_mono. eapply IH; eassumption.
Qed.

Lemma sort_positions (l : list A) (i j : nat) (a b : A) :
  nth_error (JS.sort cmp l) i = Some a ->
  nth_error (JS.sort cmp l) j = Some b ->
  R a b -> (i < j)%nat.
Proof. apply respects_positions, sort_respects. Qed.

End SortFacts.

(* ------------------------------------------------------------------ *)
(** ** Recording Ranker *)

Lemma score_rec (artist : string) (r : SearchPage.MusicBrainzRecording) :
  SearchPage.rec (SearchPage.score artist r) = r.
Proof. unfold SearchPage.score. now destruct (fold_left _ _ _). Qed.

Lemma score_artistMatch (artist : string) (r : SearchPage.MusicBrainzRecording) :
  SearchPage.artistMatch (SearchPage.score artist r) = SearchPage.isExactArtistMatch r artist.
Proof. unfold SearchPage.score. now destruct (fold_left _ _ _). Qed.

Lemma score_earliestDate (artist : string) (r : SearchPage.MusicBrainzRecording) :
  SearchPage.earliestDate (SearchPage.score artist r)
  = SearchPage.getEarliestReleaseDate (SearchPage.releases r).
Proof. unfold SearchPage.score. now destruct (fold_left _ _ _). Qed.

Section RankingFacts.
Variable localeCompare : string -> string -> Z.

Lemma compareScored_before (s t : SearchPage.Scored) :
  mustPrecede s t -> SearchPage.compareScored localeCompare s t < 0.
Proof.
  unfold mustPrecede, SearchPage.compareScored. intros [[Hs Ht]|[He Hlt]].
  - rewrite Hs, Ht. reflexivity.
  - rewrite He, Bool.eqb_reflx. cbn [negb].
    apply lt_neq in Hlt as Hne. apply String.eqb_neq in Hne.
    now rewrite Hne, Hlt.
Qed.

Lemma compareScored_after (s t : SearchPage.Scored) :
  mustPrecede s t -> 0 < SearchPage.compareScored localeCompare t s.
Proof.
  unfold mustPrecede, SearchPage.compareScored. intros [[Hs Ht]|[He Hlt]].
  - rewrite Hs, Ht. reflexivity.
  - rewrite He, Bool.eqb_reflx. cbn [negb].
    apply lt_neq in Hlt as Hne. apply not_eq_sym, String.eqb_neq in Hne.
    apply lt_asym in Hlt. now rewrite Hne, Hlt.
Qed.

Lemma compareScored_through (a b c : SearchPage.Scored) :
  mustPrecede a b -> SearchPage.compareScored localeCompare b c <= 0 -> mustPrecede a c.
Proof.
  unfold mustPrecede, SearchPage.compareScored.
  destruct (SearchPage.artistMatch a) eqn:Ma, (SearchPage.artistMatch b) eqn:Mb,
    (SearchPage.artistMatch c) eqn:Mc; cbn [Bool.eqb negb];
    intros [[H1 H2]|[H1 H2]] Hc; try discriminate; try lia; auto; right;
    (split; [reflexivity|]);
    (destruct (String.eqb_spec (SearchPage.earliestDate b) (SearchPage.earliestDate c))
      as [E|N]; cbn [negb] in Hc; [now rewrite <- E|]);
    (destruct (JS.lt (SearchPage.earliestDate b) (SearchPage.earliestDate c)) eqn:L;
     [eapply lt_trans; eassumption | lia]).
Qed.

Lemma rank_positions (recs : list SearchPage.MusicBrainzRecording) (q : string)
  (i j : nat) (a b : SearchPage.MusicBrainzRecording) :
  nth_error (SearchPage.rankRecordings localeCompare recs q) i = Some a ->
  nth_error (SearchPage.rankRecordings localeCompare recs q) j = Some b ->
  mustPrecede (SearchPage.score (JS.trim q) a) (SearchPage.score (JS.trim q) b) ->
  (i < j)%nat.
Proof.
  unfold SearchPage.rankRecordings. cbv zeta.
  set (sorted := JS.sort _ _).
  assert (Hscored : forall k r, nth_error (map SearchPage.rec sorted) k = Some r ->
                                nth_error sorted k = Some (SearchPage.score (JS.trim q) r)).
  { intros k r Hk. rewrite nth_error_map in Hk.
    destruct (nth_error sorted k) as [s|] eqn:Hs; [|discriminate].
    injection Hk as <-. f_equal.
    apply nth_error_In in Hs.
    apply (Permutation_in _ (Permutation_sym (sort_perm _ _))) in Hs.
    apply in_map_iff in Hs as (r0 & <- & _). now rewrite score_rec. }
  intros Hi Hj HR. apply Hscored in Hi, Hj.
  eapply (sort_positions (SearchPage.compareScored localeCompare) mustPrecede);
    eauto using compareScored_before, compareScored_after, compareScored_through.
Qed.

Lemma rank_length (recs : list SearchPage.MusicBrainzRecording) (q : string) :
  List.length (SearchPage.rankRecordings localeCompare recs q) = List.length recs.
Proof.
  unfold SearchPage.rankRecordings. now rewrite length_map, sort_length, length_map.
Qed.

End RankingFacts.

Lemma normalizeForCompare_trim (s : string) :
  SearchPage.normalizeForCompare (JS.trim s) = SearchPage.normalizeForCompare s.
Proof. unfold SearchPage.normalizeForCompare. now rewrite trim_idem. Qed.

Lemma normalizeForCompare_empty (s : string) :
  SearchPage.normalizeForCompare s = "" <-> allWhiteSpace s = true.
Proof.
  unfold SearchPage.normalizeForCompare. rewrite toLowerCase_empty. apply trim_empty.
Qed.

(** A query of white space only matches no recording. *)
Lemma blank_artist_never_matches (r : SearchPage.MusicBrainzRecording) (q : string) :
  allWhiteSpace q = true -> SearchPage.isExactArtistMatch r (JS.trim q) = false.
Proof.
  intro Hq. unfold SearchPage.isExactArtistMatch. cbv zeta.
  rewrite normalizeForCompare_trim.
  apply normalizeForCompare_empty in Hq. now rewrite Hq.
Qed.

(** [artistMatch] is true exactly when the query is not blank and some
    credit's display name equals it after trimming and lower-casing. *)
Lemma isExactArtistMatch_iff (r : SearchPage.MusicBrainzRecording) (q : string) :
  SearchPage.isExactArtistMatch r (JS.trim q) = true <->
  allWhiteSpace q = false /\
  exists c n,
    In c (creditsOf r) /\ SearchPage.creditDisplayName c = Some n /\
    SearchPage.normalizeForCompare n = SearchPage.normalizeForCompare q.
Proof.
  unfold SearchPage.isExactArtistMatch, creditsOf. cbv zeta.
  rewrite normalizeForCompare_trim.
  destruct (allWhiteSpace q) eqn:Hq.
  - apply normalizeForCompare_empty in Hq. rewrite Hq. simpl.
    split; [discriminate | intros [? _]; discriminate].
  - destruct (Nat.eqb_spec (String.length (SearchPage.normalizeForCompare q)) 0) as [E|N].
    { apply Nat.eqb_eq, str_length_zero, normalizeForCompare_empty in E. congruence. }
    assert (Hne : SearchPage.normalizeForCompare q <> "").
    { intro E. apply N. now rewrite E. }
    destruct (SearchPage.artist_credit r) as [cs|].
    + rewrite existsb_exists. split.
      * intros (c & Hc & Hm). split; [reflexivity|].
        destruct (SearchPage.creditDisplayName c) as [n|] eqn:Hn; [|discriminate].
        destruct (n =? "")%string; [discriminate|].
        apply String.eqb_eq in Hm. eauto.
      * intros (_ & c & n & Hc & Hn & Hm). exists c. split; [assumption|].
        rewrite Hn. destruct (String.eqb_spec n "") as [->|_].
        -- exfalso. apply Hne. rewrite <- Hm. reflexivity.
        -- now apply String.eqb_eq.
    + split; [discriminate | intros (_ & c & n & [] & _)].
Qed.

(** C4.  In the output of [rankRecordings] every recording with the artist
    match stands at a smaller index than every recording without it,
    whatever their other keys; the artist match holds exactly when the query
    is not blank and a credit's display name equals it after trimming and
    lower-casing, so a query that is empty or white space only matches no
    recording; and of two recordings that agree on the artist match the one
    with the smaller earliest date key stands at the smaller index. *)
Theorem rankRecordings_order (localeCompare : string -> string -> Z)
  (recs : list SearchPage.MusicBrainzRecording) (q : string) :
  let out := SearchPage.rankRecordings localeCompare recs q in
  let matches r := SearchPage.isExactArtistMatch r (JS.trim q) in
  (forall i j a b,
     nth_error out i = Some a -> nth_error out j = Some b ->
     matches a = true -> matches b = false -> (i < j)%nat) /\
  (forall r,
     matches r = true <->
     allWhiteSpace q = false /\
     exists c n,
       In c (creditsOf r) /\ SearchPage.creditDisplayName c = Some n /\
       SearchPage.normalizeForCompare n = SearchPage.normalizeForCompare q) /\
  (allWhiteSpace q = true -> forall r, matches r = false) /\
  (forall i j a b,
     nth_error out i = Some a -> nth_error out j = Some b ->
     matches a = matches b ->
     JS.lt (SearchPage.getEarliestReleaseDate (SearchPage.releases a))
       (SearchPage.getEarliestReleaseDate (SearchPage.releases b)) = true ->
     (i < j)%nat).
Proof.
  intros out matches. split; [|split; [|split]].
  - intros i j a b Hi Hj Ma Mb.
    apply (rank_positions localeCompare recs q i j a b Hi Hj).
    left. now rewrite !score_artistMatch.
  - intro r. apply isExactArtistMatch_iff.
  - intros Hq r. now apply blank_artist_never_matches.
  - intros i j a b Hi Hj Hm Hd.
    apply (rank_positions localeCompare recs q i j a b Hi Hj).
    right. now rewrite !score_artistMatch, !score_earliestDate.
Qed.

Lemma rankRecordings_order_witness :
  let out := SearchPage.rankRecordings codeUnitCompare [recCover; recR2; recR1] " the beatles " in
  out = [recR1; recR2; recCover] /\ (0 < 2)%nat /\ (0 < 1)%nat /\
  SearchPage.isExactArtistMatch recR1 (JS.trim "   ") = false.
Proof.
  destruct (rankRecordings_order codeUnitCompare [recCover; recR2; recR1] " the beatles ")
    as (Hmatch & _ & _ & Hdate).
  destruct (rankRecordings_order codeUnitCompare [recCover; recR2; recR1] "   ")
    as (_ & _ & Hblank & _).
  split; [reflexivity|]. split; [|split].
  - apply (Hmatch 0%nat 2%nat recR1 recCover); reflexivity.
  - apply (Hdate 0%nat 1%nat recR1 recR2); reflexivity.
  - apply Hblank. reflexivity.
Defined.

(** *** Recordings without releases *)

Lemma lt_cons (c d : ascii) (s t : string) :
  JS.lt (String c s) (String d t)
  = match Ascii.compare c d with
    | Eq => JS.lt s t
    | Lt => true
    | Gt => false
    end.
Proof.
  unfold JS.lt, String.ltb. simpl. now destruct (Ascii.compare c d).
Qed.

Lemma digit_vs_nine (c : ascii) :
  isDigit c = true -> Ascii.compare c "9" = Lt \/ c = "9"%char.
Proof.
  unfold isDigit, Ascii.compare. cbv zeta. intro H.
  apply andb_true_iff in H as [_ H]. apply N.leb_le in H.
  change (N_of_ascii "9") with 57%N.
  destruct (N.eq_dec (N_of_ascii c) 57) as [E|NE].
  - right. rewrite <- (ascii_N_embedding c), E. reflexivity.
  - left. apply N.compare_lt_iff. lia.
Qed.

Lemma lt_digit_nine (c : ascii) (s t : string) :
  isDigit c = true -> JS.lt s t = true -> JS.lt (String c s) (String "9" t) = true.
Proof.
  intros Hc Hlt. rewrite lt_cons.
  destruct (digit_vs_nine c Hc) as [-> | ->]; [reflexivity|].
  now rewrite ascii_compare_refl.
Qed.

Lemma month_vs_nine (m1 m2 : ascii) :
  twoDigitsIn 1 12 m1 m2 = true -> Ascii.compare m1 "9" = Lt.
Proof.
  unfold twoDigitsIn, isDigit, Ascii.compare. cbv zeta.
  change (N_of_ascii "9") with 57%N. intro H.
  repeat match goal with
         | H : (_ && _)%bool = true |- _ => apply andb_true_iff in H as [? ?]
         | H : (_ <=? _)%N = true |- _ => apply N.leb_le in H
         end.
  apply N.compare_lt_iff. lia.
Qed.

(** A real partial date normalizes below the key of the undated. *)
Lemma partial_date_below_sentinel (s : string) :
  isPartialDate s = true ->
  JS.lt (SearchPage.normalizePartialDate s) "9999-99-99" = true.
Proof.
  destruct s as [|y1 [|y2 [|y3 [|y4 rest]]]]; try discriminate.
  cbn [isPartialDate]. intro H.
  apply andb_true_iff in H as [H Hrest].
  apply andb_true_iff in H as [H H4].
  apply andb_true_iff in H as [H H3].
  apply andb_true_iff in H as [H1 H2].
  assert (Hyear : forall u, JS.lt u "-99-99" = true ->
                            JS.lt (String y1 (String y2 (String y3 (String y4 u))))
                              "9999-99-99" = true).
  { intros u Hu. repeat (apply lt_digit_nine; [assumption|]). exact Hu. }
  destruct rest as [|dash1 [|m1 [|m2 rest']]]; try discriminate.
  - apply Hyear. reflexivity.
  - apply andb_true_iff in Hrest as [Hm Hday].
    apply andb_true_iff in Hm as [Hdash Hm].
    apply Ascii.eqb_eq in Hdash. subst dash1.
    apply month_vs_nine in Hm.
    destruct rest' as [|dash2 [|d1 [|d2 [|? ?]]]]; try discriminate;
      cbn; apply Hyear; rewrite lt_cons, ascii_compare_refl, lt_cons, Hm; reflexivity.
Qed.

Lemma earliest_fold_below (bound : string) (rs : list SearchPage.MusicBrainzRelease) :
  forall best,
    JS.lt best bound = true ->
    JS.lt (fold_left
             (fun best r =>
                let raw := SearchPage.rawDate r in
                if (String.length raw =? 0)%nat then best
                else
                  let norm := SearchPage.normalizePartialDate raw in
                  if JS.lt norm best then norm else best)
             rs best) bound = true.
Proof.
  induction rs as [|r rs IH]; intros best Hb; [exact Hb|].
  cbn [fold_left]. apply IH. cbv zeta.
  destruct (String.length (SearchPage.rawDate r) =? 0)%nat; [exact Hb|].
  destruct (JS.lt _ best) eqn:Hlt; [|exact Hb].
  eapply lt_trans; eassumption.
Qed.

Lemma earliest_fold_reaches (bound : string) (x : SearchPage.MusicBrainzRelease)
  (rs : list SearchPage.MusicBrainzRelease) :
  In x rs ->
  SearchPage.rawDate x <> "" ->
  JS.lt (SearchPage.normalizePartialDate (SearchPage.rawDate x)) bound = true ->
  forall best,
    JS.lt (fold_left
             (fun best r =>
                let raw := SearchPage.rawDate r in
                if (String.length raw =? 0)%nat then best
                else
                  let norm := SearchPage.normalizePartialDate raw in
                  if JS.lt norm best then norm else best)
             rs best) bound = true.
Proof.
  intros Hin Hraw Hx. induction rs as [|r rs IH]; [contradiction|].
  intro best. cbn [fold_left]. destruct Hin as [->|Hin]; [|now apply IH].
  apply earliest_fold_below. cbv zeta.
  destruct (Nat.eqb_spec (String.length (SearchPage.rawDate x)) 0) as [E|_].
  { apply Nat.eqb_eq, str_length_zero in E. contradiction. }
  destruct (JS.lt _ best) eqn:Hlt; [exact Hx|].
  eapply le_lt_trans; eassumption.
Qed.

(** A recording with a release that carries a real date has an earliest
    date key below the key of the undated. *)
Lemma dated_recording_below_sentinel (a : SearchPage.MusicBrainzRecording)
  (rs : list SearchPage.MusicBrainzRelease) (x : SearchPage.MusicBrainzRelease)
  (d : string) :
  SearchPage.releases a = Some rs -> In x rs -> SearchPage.date x = Some d ->
  isPartialDate (JS.trim d) = true ->
  JS.lt (SearchPage.getEarliestReleaseDate (SearchPage.releases a)) "9999-99-99" = true.
Proof.
  intros Hrs Hin Hd Hreal. rewrite Hrs. unfold SearchPage.getEarliestReleaseDate.
  assert (Hraw : SearchPage.rawDate x = JS.trim d).
  { unfold SearchPage.rawDate. now rewrite Hd. }
  apply (earliest_fold_reaches "9999-99-99" x rs Hin).
  - rewrite Hraw. intro E. rewrite E in Hreal. discriminate.
  - rewrite Hraw. now apply partial_date_below_sentinel.
Qed.

Lemma score_without_releases (artist : string) (z : SearchPage.MusicBrainzRecording) :
  SearchPage.releases z = None \/ SearchPage.releases z = Some [] ->
  SearchPage.earliestDate (SearchPage.score artist z) = "9999-99-99" /\
  SearchPage.s_bestQuality (SearchPage.score artist z) = 999 /\
  SearchPage.bestPrimaryPenalty (SearchPage.score artist z) = 99.
Proof.
  unfold SearchPage.score. intros [H|H]; rewrite H; repeat split.
Qed.

(** C5.  [rankRecordings] is total and returns as many recordings as it is
    given.  A recording without releases (the list absent or empty) is
    scored with the date key ["9999-99-99"], quality 999 and primacy 99;
    every release scores strictly less on both scorers; and in the output
    such a recording stands at a greater index than every recording of the
    same artist-match status that has a release with a real date. *)
Theorem recording_without_releases (localeCompare : string -> string -> Z)
  (recs : list SearchPage.MusicBrainzRecording) (q : string)
  (z : SearchPage.MusicBrainzRecording) :
  SearchPage.releases z = None \/ SearchPage.releases z = Some [] ->
  let out := SearchPage.rankRecordings localeCompare recs q in
  let sz := SearchPage.score (JS.trim q) z in
  List.length out = List.length recs /\
  SearchPage.earliestDate sz = "9999-99-99" /\
  SearchPage.s_bestQuality sz = 999 /\
  SearchPage.bestPrimaryPenalty sz = 99 /\
  (forall r,
     SearchPage.getReleaseQualityPenalty r < SearchPage.s_bestQuality sz /\
     SearchPage.getPrimaryReleaseGroupPenalty r < SearchPage.bestPrimaryPenalty sz) /\
  (forall i j a rs x d,
     nth_error out i = Some a -> nth_error out j = Some z ->
     SearchPage.isExactArtistMatch a (JS.trim q)
     = SearchPage.isExactArtistMatch z (JS.trim q) ->
     SearchPage.releases a = Some rs -> In x rs -> SearchPage.date x = Some d ->
     isPartialDate (JS.trim d) = true ->
     (i < j)%nat).
Proof.
  intros Hz out sz.
  destruct (score_without_releases (JS.trim q) z Hz) as (Hd & Hq & Hp).
  split; [apply rank_length|]. repeat (split; [assumption|]). split.
  - intro r. fold sz in Hq, Hp. rewrite Hq, Hp.
    pose proof (getReleaseQualityPenalty_bounds r).
    pose proof (getPrimaryReleaseGroupPenalty_bounds r). lia.
  - intros i j a rs x d Hi Hj Hm Hrs Hin Hdate Hreal.
    apply (rank_positions localeCompare recs q i j a z Hi Hj).
    right. rewrite !score_artistMatch. split; [exact Hm|].
    rewrite Hd, score_earliestDate.
    eapply dated_recording_below_sentinel; eassumption.
Qed.

Lemma recording_without_releases_witness :
  SearchPage.rankRecordings codeUnitCompare [recBare; recCover; recR2] "The Beatles"
  = [recR2; recBare; recCover] /\ (0 < 1)%nat.
Proof.
  split; [reflexivity|].
  destruct (recording_without_releases codeUnitCompare [recBare; recCover; recR2]
              "The Beatles" recBare (or_introl eq_refl)) as (_ & _ & _ & _ & _ & H).
  apply (H 0%nat 1%nat recR2 [rel19651203] rel19651203 "1965-12-03");
    try reflexivity.
  left. reflexivity.
Defined.

(* ------------------------------------------------------------------ *)
(** ** Query Builder *)

Lemma prefix_empty (s : string) : String.prefix "" s = true.
Proof. now destruct s. Qed.

Lemma escapeQueryValue_each (v : string) : SearchPage.escapeQueryValue v = escapeEach v.
Proof.
  unfold SearchPage.escapeQueryValue, JS.replaceAll.
  induction v as [|c v IH]; [reflexivity|].
  cbn [JS.replaceAllFrom escapeEach]. unfold escapeChar.
  cbn [String.prefix String.length Nat.pred].
  destruct (ascii_dec JS.dquote c) as [<-|Hne].
  - rewrite prefix_empty, IH. reflexivity.
  - rewrite IH. destruct (Ascii.eqb_spec c JS.dquote) as [->|_]; [congruence|reflexivity].
Qed.

(** C7.  With [t] and [a] the trimmed title and artist,
    [buildRecordingSearchQuery] returns the empty string when both are
    empty, the one clause [recording:"..."] or [artist:"..."] when one is
    empty, and the two clauses joined by [" AND "] when none is; the value in
    a clause is escaped, which puts a backslash in front of every double
    quote and changes no other code unit; and the three examples of the
    specification hold. *)
Theorem buildRecordingSearchQuery_spec (title artist : string) :
  let t := JS.trim title in
  let a := JS.trim artist in
  (t = "" -> a = "" -> SearchPage.buildRecordingSearchQuery title artist = "") /\
  (t <> "" -> a = "" ->
   SearchPage.buildRecordingSearchQuery title artist
   = "recording:" ++ quoted (SearchPage.escapeQueryValue t)) /\
  (t = "" -> a <> "" ->
   SearchPage.buildRecordingSearchQuery title artist
   = "artist:" ++ quoted (SearchPage.escapeQueryValue a)) /\
  (t <> "" -> a <> "" ->
   SearchPage.buildRecordingSearchQuery title artist
   = ("recording:" ++ quoted (SearchPage.escapeQueryValue t))
       ++ " AND " ++ ("artist:" ++ quoted (SearchPage.escapeQueryValue a))) /\
  (forall v, SearchPage.escapeQueryValue v = escapeEach v) /\
  SearchPage.buildRecordingSearchQuery "" "" = "" /\
  SearchPage.buildRecordingSearchQuery "Yesterday" "" = "recording:" ++ quoted "Yesterday" /\
  SearchPage.buildRecordingSearchQuery titleAB "X"
  = ("recording:" ++ quoted ("A " ++ String JS.backslash (String JS.dquote
                                       ("B" ++ String JS.backslash (String JS.dquote "")))))
      ++ " AND " ++ ("artist:" ++ quoted "X").
Proof.
  intros t a. unfold SearchPage.buildRecordingSearchQuery. cbv zeta. fold t a.
  split; [|split; [|split; [|split; [|split]]]].
  - intros -> ->. reflexivity.
  - intros Ht ->. apply str_length_pos in Ht. rewrite Ht. reflexivity.
  - intros -> Ha. apply str_length_pos in Ha. rewrite Ha. reflexivity.
  - intros Ht Ha. apply str_length_pos in Ht, Ha. rewrite Ht, Ha. reflexivity.
  - exact escapeQueryValue_each.
  - repeat split.
Qed.

Lemma buildRecordingSearchQuery_spec_witness :
  SearchPage.buildRecordingSearchQuery " Yesterday " " "
  = "recording:" ++ quoted (SearchPage.escapeQueryValue "Yesterday") /\
  SearchPage.buildRecordingSearchQuery "Help! " "The Beatles"
  = ("recording:" ++ quoted (SearchPage.escapeQueryValue "Help!"))
      ++ " AND " ++ ("artist:" ++ quoted (SearchPage.escapeQueryValue "The Beatles")).
Proof.
  destruct (buildRecordingSearchQuery_spec " Yesterday " " ") as (_ & Hone & _).
  destruct (buildRecordingSearchQuery_spec "Help! " "The Beatles")
    as (_ & _ & _ & Hboth & _).
  split.
  - apply Hone; [vm_compute; discriminate | reflexivity].
  - apply Hboth; vm_compute; discriminate.
Defined.

(* ------------------------------------------------------------------ *)
(** ** Failed requests *)

Lemma prefix_app (b c : string) : String.prefix b (b ++ c) = true.
Proof.
  induction b as [|x b IH]; simpl; [apply prefix_empty|].
  destruct (ascii_dec x x); [exact IH | congruence].
Qed.

Lemma includes_unfold (h n : string) :
  JS.includes h n
  = String.prefix n h || match h with
                         | EmptyString => false
                         | String _ h' => JS.includes h' n
                         end.
Proof. now destruct h. Qed.

Lemma includes_app (a b c : string) : JS.includes (a ++ b ++ c) b = true.
Proof.
  induction a as [|x a IH].
  - cbn [append]. rewrite includes_unfold, prefix_app. reflexivity.
  - cbn [append]. rewrite includes_unfold, IH. apply orb_true_r.
Qed.

Lemma requestFailed_embeds (status : N) :
  JS.includes (requestFailed status) (JS.numberToString status) = true.
Proof. apply includes_app. Qed.

(** C8.  On a response that is not a success the detail lookup throws; the
    message contains the decimal status; for the status 403 it is not the
    generic [Request failed (403)] but a message that asks for a valid
    User-Agent and names [MUSICBRAINZ_USER_AGENT], and for every other
    status it is the generic [Request failed (<status>)].  The search
    throws the generic message, which contains the decimal status, on every
    response that is not a success. *)
Theorem failed_requests_embed_status :
  (forall res : Response RecordingPage.MusicBrainzRecordingDetails,
     ok res = false ->
     exists msg,
       RecordingPage.fetchRecording res = Throw msg /\
       JS.includes msg (JS.numberToString (status res)) = true /\
       (status res = 403%N ->
        msg <> requestFailed 403 /\
        JS.includes msg "MusicBrainz requires a valid User-Agent" = true /\
        JS.includes msg "Set MUSICBRAINZ_USER_AGENT" = true) /\
       (status res <> 403%N -> msg = requestFailed (status res))) /\
  (forall (localeCompare : string -> string -> Z) (artist : string)
          (res : Response SearchPage.MusicBrainzRecordingResponse),
     ok res = false ->
     SearchPage.runSearchTry localeCompare artist res = Throw (requestFailed (status res)) /\
     JS.includes (requestFailed (status res)) (JS.numberToString (status res)) = true).
Proof.
  split.
  - intros res Hok. unfold RecordingPage.fetchRecording. rewrite Hok. cbn [negb].
    destruct (N.eqb_spec (status res) 403) as [E|NE].
    + eexists. split; [reflexivity|]. rewrite E.
      split; [vm_compute; reflexivity|].
      split; [|intro; contradiction].
      intros _. split; [vm_compute; discriminate|].
      split; vm_compute; reflexivity.
    + exists (requestFailed (status res)). split; [reflexivity|].
      split; [apply requestFailed_embeds|].
      split; [intro; contradiction | reflexivity].
  - intros lc artist res Hok. unfold SearchPage.runSearchTry. rewrite Hok. cbn [negb].
    split; [reflexivity | apply requestFailed_embeds].
Qed.

Lemma failed_requests_embed_status_witness :
  RecordingPage.fetchRecording
    (mkResponse false 503 (RecordingPage.mkDetails "" "" None None None))
  = Throw "Request failed (503)" /\
  SearchPage.runSearchTry codeUnitCompare "x"
    (mkResponse false 429 (SearchPage.mkSearchResponse None None None))
  = Throw "Request failed (429)".
Proof.
  destruct failed_requests_embed_status as [Hdetail Hsearch].
  split.
  - destruct (Hdetail (mkResponse false 503 (RecordingPage.mkDetails "" "" None None None))
                eq_refl) as (msg & Hthrow & _ & _ & Hmsg).
    rewrite Hthrow. f_equal. apply Hmsg. discriminate.
  - apply (Hsearch codeUnitCompare "x"
             (mkResponse false 429 (SearchPage.mkSearchResponse None None None))).
    reflexivity.
Defined.

(* ------------------------------------------------------------------ *)
(** ** The first release of the recording page *)

Lemma firstStep_scan (l : list RecordingPage.MusicBrainzRelease) :
  forall b, exists l1 m l2,
    fold_left RecordingPage.firstStep l (Some b) = Some m /\
    b :: l = (l1 ++ m :: l2)%list /\
    Forall (fun y => JS.lt (RecordingPage.sortKey m) (RecordingPage.sortKey y) = true) l1 /\
    Forall (fun y => JS.lt (RecordingPage.sortKey y) (RecordingPage.sortKey m) = false) l2.
Proof.
  induction l as [|r l IH] using rev_ind; intro b.
  - exists [], b, []. repeat split; constructor.
  - destruct (IH b) as (l1 & m & l2 & Hf & Hs & H1 & H2).
    rewrite fold_left_app, Hf. cbn [fold_left RecordingPage.firstStep].
    destruct (JS.lt (RecordingPage.sortKey r) (RecordingPage.sortKey m)) eqn:Hlt.
    + exists (b :: l), r, []. split; [reflexivity|]. split; [reflexivity|].
      split; [|constructor]. rewrite Hs. apply Forall_app. split.
      * eapply Forall_impl; [|exact H1]. intros y Hy. eapply lt_trans; eassumption.
      * constructor; [assumption|].
        eapply Forall_impl; [|exact H2]. intros y Hy. eapply lt_le_trans; eassumption.
    + exists l1, m, (l2 ++ [r])%list. split; [reflexivity|]. split; [|split].
      * rewrite app_comm_cons, Hs, <- app_assoc. reflexivity.
      * assumption.
      * apply Forall_app. split; [assumption | constructor; [assumption | constructor]].
Qed.

Lemma firstStep_head (x : RecordingPage.MusicBrainzRelease)
  (l : list RecordingPage.MusicBrainzRelease) :
  fold_left RecordingPage.firstStep (x :: l) (hd_error (x :: l))
  = fold_left RecordingPage.firstStep l (Some x).
Proof.
  cbn [fold_left hd_error RecordingPage.firstStep]. now rewrite lt_irrefl.
Qed.

(** [getFirstRelease] returns nothing exactly for an absent or empty list. *)
Lemma getFirstRelease_null (rs : option (list RecordingPage.MusicBrainzRelease)) :
  RecordingPage.getFirstRelease rs = None <-> rs = None \/ rs = Some [].
Proof.
  split; [|intros [-> | ->]; reflexivity].
  destruct rs as [[|r rs]|]; auto. unfold RecordingPage.getFirstRelease. cbv zeta.
  set (list := if (0 <? _)%nat then _ else _).
  assert (Hne : list <> []).
  { subst list. destruct (filter RecordingPage.hasDate (r :: rs)); simpl; discriminate. }
  destruct list as [|x l]; [congruence|].
  rewrite firstStep_head.
  destruct (firstStep_scan l x) as (? & m & ? & -> & _). discriminate.
Qed.

(** When some release carries a date, the result is the first of the dated
    releases whose key is minimal among them. *)
Lemma getFirstRelease_dated (rs : list RecordingPage.MusicBrainzRelease) :
  filter RecordingPage.hasDate rs <> [] ->
  exists l1 m l2,
    RecordingPage.getFirstRelease (Some rs) = Some m /\
    filter RecordingPage.hasDate rs = (l1 ++ m :: l2)%list /\
    RecordingPage.hasDate m = true /\
    Forall (fun y => JS.lt (RecordingPage.sortKey m) (RecordingPage.sortKey y) = true) l1 /\
    Forall (fun y => JS.lt (RecordingPage.sortKey y) (RecordingPage.sortKey m) = false) l2.
Proof.
  intro Hne. destruct rs as [|r rs]; [now elim Hne|].
  unfold RecordingPage.getFirstRelease. cbv zeta.
  destruct (filter RecordingPage.hasDate (r :: rs)) as [|x l] eqn:Hf; [congruence|].
  cbn [List.length Nat.ltb Nat.leb]. rewrite firstStep_head.
  destruct (firstStep_scan l x) as (l1 & m & l2 & Hfold & Hs & H1 & H2).
  exists l1, m, l2. repeat (split; [assumption|]). split; [|auto].
  assert (Hin : In m (filter RecordingPage.hasDate (r :: rs))).
  { rewrite Hf, Hs. apply in_elt. }
  now apply filter_In in Hin.
Qed.

(** When no release has a date field at all, the result is the first
    release. *)
Lemma getFirstRelease_all_absent (r : RecordingPage.MusicBrainzRelease)
  (rs : list RecordingPage.MusicBrainzRelease) :
  Forall (fun x => RecordingPage.date x = None) (r :: rs) ->
  RecordingPage.getFirstRelease (Some (r :: rs)) = Some r.
Proof.
  intro Hall. unfold RecordingPage.getFirstRelease. cbv zeta.
  assert (Hf : filter RecordingPage.hasDate (r :: rs) = []).
  { apply List.Forall_forall with (x := r) in Hall as Hr; [|now left].
    clear Hr. induction Hall as [|x l Hx _ IH]; [reflexivity|].
    cbn [filter]. unfold RecordingPage.hasDate at 1. now rewrite Hx. }
  rewrite Hf. cbn [List.length Nat.ltb Nat.leb]. rewrite firstStep_head.
  destruct (firstStep_scan rs r) as (l1 & m & l2 & -> & Hs & H1 & _).
  destruct l1 as [|y l1]; [now injection Hs as ->|].
  exfalso. injection Hs as <- Hs. apply Forall_inv in H1.
  assert (Hm : In m (r :: rs)). { right. rewrite Hs. apply in_elt. }
  rewrite Forall_forall in Hall.
  unfold RecordingPage.sortKey in H1.
  rewrite (Hall m Hm), (Hall r (or_introl eq_refl)), lt_irrefl in H1. discriminate.
Qed.

(** C9 on the input that separates the code from the claim: no release has
    a non-blank date, the list is not empty, and the result is the second
    release (its key, the empty string, is below ["9999-99-99"]), not the
    first. *)
Theorem getFirstRelease_blank_date :
  filter RecordingPage.hasDate [undatedFirst; blankSecond] = [] /\
  RecordingPage.sortKey undatedFirst = "9999-99-99" /\
  RecordingPage.sortKey blankSecond = "" /\
  RecordingPage.getFirstRelease (Some [undatedFirst; blankSecond]) = Some blankSecond /\
  blankSecond <> undatedFirst.
Proof.
  repeat split. discriminate.
Qed.

(* ------------------------------------------------------------------ *)
(** ** Blank dates on the search page *)

Lemma rawDate_blank (r : SearchPage.MusicBrainzRelease) (d : string) :
  SearchPage.date r = Some d -> allWhiteSpace d = true -> SearchPage.rawDate r = "".
Proof.
  intros Hd Hb. unfold SearchPage.rawDate. rewrite Hd. now apply trim_empty.
Qed.

Lemma rawDate_blankToAbsent (r : SearchPage.MusicBrainzRelease) :
  SearchPage.rawDate (blankToAbsent r) = SearchPage.rawDate r.
Proof.
  unfold blankToAbsent. destruct (SearchPage.date r) as [d|] eqn:Hd; [|reflexivity].
  destruct (allWhiteSpace d) eqn:Hb; [|reflexivity].
  now rewrite (rawDate_blank r d Hd Hb).
Qed.

Lemma keys_blankToAbsent (r : SearchPage.MusicBrainzRelease) :
  SearchPage.dateKey (blankToAbsent r) = SearchPage.dateKey r /\
  SearchPage.getReleaseQualityPenalty (blankToAbsent r)
  = SearchPage.getReleaseQualityPenalty r /\
  SearchPage.getPrimaryReleaseGroupPenalty (blankToAbsent r)
  = SearchPage.getPrimaryReleaseGroupPenalty r.
Proof.
  split.
  - unfold SearchPage.dateKey. now rewrite rawDate_blankToAbsent.
  - unfold blankToAbsent. destruct (SearchPage.date r) as [d|]; [|split; reflexivity].
    destruct (allWhiteSpace d); split; reflexivity.
Qed.

Lemma pickStep_blankToAbsent (st : SearchPage.PickState) (r : SearchPage.MusicBrainzRelease) :
  SearchPage.pickStep (mapBest blankToAbsent st) (blankToAbsent r)
  = mapBest blankToAbsent (SearchPage.pickStep st r).
Proof.
  destruct (keys_blankToAbsent r) as (Hd & Hq & Hp).
  unfold SearchPage.pickStep. rewrite Hd, Hq, Hp.
  destruct st as [[b|] bd bq bp]; [|reflexivity].
  unfold mapBest.
  cbn [SearchPage.best SearchPage.bestDate SearchPage.bestQuality SearchPage.bestPrimary
       option_map].
  split_ifs; reflexivity.
Qed.

Lemma pick_fold_blankToAbsent (rs : list SearchPage.MusicBrainzRelease) :
  forall st,
    fold_left SearchPage.pickStep (map blankToAbsent rs) (mapBest blankToAbsent st)
    = mapBest blankToAbsent (fold_left SearchPage.pickStep rs st).
Proof.
  induction rs as [|r rs IH]; intro st; [reflexivity|].
  cbn [map fold_left]. now rewrite pickStep_blankToAbsent, IH.
Qed.

Lemma pickCanonicalRelease_blankToAbsent (rs : list SearchPage.MusicBrainzRelease) :
  SearchPage.pickCanonicalRelease (Some (map blankToAbsent rs))
  = option_map blankToAbsent (SearchPage.pickCanonicalRelease (Some rs)).
Proof.
  destruct rs as [|r rs]; [reflexivity|].
  unfold SearchPage.pickCanonicalRelease.
  change (map blankToAbsent (r :: rs)) with (blankToAbsent r :: map blankToAbsent rs).
  change (SearchPage.mkPick None "9999-99-99" 9999 9999)
    with (mapBest blankToAbsent (SearchPage.mkPick None "9999-99-99" 9999 9999)) at 1.
  change (blankToAbsent r :: map blankToAbsent rs) with (map blankToAbsent (r :: rs)).
  now rewrite pick_fold_blankToAbsent.
Qed.

Lemma earliest_blankToAbsent (rs : list SearchPage.MusicBrainzRelease) :
  SearchPage.getEarliestReleaseDate (Some (map blankToAbsent rs))
  = SearchPage.getEarliestReleaseDate (Some rs).
Proof.
  unfold SearchPage.getEarliestReleaseDate. generalize "9999-99-99".
  induction rs as [|r rs IH]; intro best; [reflexivity|].
  cbn [map fold_left]. cbv zeta. rewrite rawDate_blankToAbsent. apply IH.
Qed.

Lemma earliest_skips_blank (r : SearchPage.MusicBrainzRelease) (d : string)
  (l1 l2 : list SearchPage.MusicBrainzRelease) :
  SearchPage.date r = Some d -> allWhiteSpace d = true ->
  SearchPage.getEarliestReleaseDate (Some (l1 ++ r :: l2)%list)
  = SearchPage.getEarliestReleaseDate (Some (l1 ++ l2)%list).
Proof.
  intros Hd Hb. unfold SearchPage.getEarliestReleaseDate.
  rewrite !fold_left_app. cbn [fold_left]. cbv zeta.
  now rewrite (rawDate_blank r d Hd Hb).
Qed.

(** No release of the list has a date key below the winner's. *)
Lemma winner_has_least_date (rs : list SearchPage.MusicBrainzRelease)
  (m x : SearchPage.MusicBrainzRelease) :
  SearchPage.pickCanonicalRelease (Some rs) = Some m -> In x rs ->
  JS.lt (SearchPage.dateKey x) (SearchPage.dateKey m) = false.
Proof.
  intros Hm Hx. destruct rs as [|r rs]; [contradiction|].
  destruct (pickCanonicalRelease_first_min (r :: rs)) as (l1 & m' & l2 & Hs & Hp & H1 & H2);
    [discriminate|].
  rewrite Hp in Hm. injection Hm as ->. rewrite Hs in Hx.
  assert (Hle : keyLe m x).
  { apply in_app_or in Hx as [Hx|[<-|Hx]].
    - left. rewrite Forall_forall in H1. auto.
    - now right.
    - rewrite Forall_forall in H2. auto. }
  destruct Hle as [[H|[[E _]|(E & _)]]|E].
  - now apply lt_asym.
  - rewrite E. apply lt_irrefl.
  - rewrite E. apply lt_irrefl.
  - injection E as E _ _. rewrite E. apply lt_irrefl.
Qed.

(** C10.  A release whose date is present but blank has the date key
    ["9999-99-99"] of a release without a date.  Taking the blank dates
    away changes neither the earliest date key of a release list nor the
    release that [pickCanonicalRelease] selects; a blank-dated release can
    be dropped from a list without changing the earliest date key; and it
    is never selected when the list has a release with a non-blank date that
    normalizes below ["9999-99-99"]. *)
Theorem blank_date_is_absent_date :
  (forall r d,
     SearchPage.date r = Some d -> allWhiteSpace d = true ->
     SearchPage.dateKey r = "9999-99-99" /\
     SearchPage.dateKey r = SearchPage.dateKey (withDate None r)) /\
  (forall rs,
     SearchPage.getEarliestReleaseDate (Some (map blankToAbsent rs))
     = SearchPage.getEarliestReleaseDate (Some rs)) /\
  (forall rs,
     SearchPage.pickCanonicalRelease (Some (map blankToAbsent rs))
     = option_map blankToAbsent (SearchPage.pickCanonicalRelease (Some rs))) /\
  (forall r d l1 l2,
     SearchPage.date r = Some d -> allWhiteSpace d = true ->
     SearchPage.getEarliestReleaseDate (Some (l1 ++ r :: l2)%list)
     = SearchPage.getEarliestReleaseDate (Some (l1 ++ l2)%list)) /\
  (forall rs r d x dx,
     In r rs -> SearchPage.date r = Some d -> allWhiteSpace d = true ->
     In x rs -> SearchPage.date x = Some dx -> allWhiteSpace dx = false ->
     JS.lt (SearchPage.normalizePartialDate (JS.trim dx)) "9999-99-99" = true ->
     SearchPage.pickCanonicalRelease (Some rs) <> Some r).
Proof.
  split; [|split; [|split; [|split]]].
  - intros r d Hd Hb. unfold SearchPage.dateKey.
    now rewrite (rawDate_blank r d Hd Hb).
  - exact earliest_blankToAbsent.
  - exact pickCanonicalRelease_blankToAbsent.
  - intros r d l1 l2. apply earliest_skips_blank.
  - intros rs r d x dx Hr Hd Hb Hx Hdx Hnb Hlt Hpick.
    pose proof (winner_has_least_date rs r x Hpick Hx) as Hle.
    assert (Hkr : SearchPage.dateKey r = "9999-99-99").
    { unfold SearchPage.dateKey. now rewrite (rawDate_blank r d Hd Hb). }
    assert (Hkx : SearchPage.dateKey x = SearchPage.normalizePartialDate (JS.trim dx)).
    { unfold SearchPage.dateKey, SearchPage.rawDate. rewrite Hdx.
      destruct (JS.trim dx) eqn:Ht; [|reflexivity].
      apply trim_empty in Ht. congruence. }
    rewrite Hkr, Hkx, Hlt in Hle. discriminate.
Qed.

Lemma blank_date_is_absent_date_witness :
  SearchPage.dateKey relBlank = "9999-99-99" /\
  SearchPage.getEarliestReleaseDate (Some [rel1965; relBlank])
  = SearchPage.getEarliestReleaseDate (Some [rel1965]) /\
  SearchPage.pickCanonicalRelease (Some [relBlank; rel1965]) <> Some relBlank.
Proof.
  destruct blank_date_is_absent_date as (Hkey & _ & _ & Hskip & Hpick).
  split; [|split].
  - apply (Hkey relBlank "  "); reflexivity.
  - apply (Hskip relBlank "  " [rel1965] []); reflexivity.
  - apply (Hpick [relBlank; rel1965] relBlank "  " rel1965 "1965");
      try reflexivity; simpl; auto.
Defined.

(* ------------------------------------------------------------------ *)
(** ** More on the ranker *)

Lemma rankBefore_irrefl (s : SearchPage.Scored) : ~ rankBefore s s.
Proof.
  unfold rankBefore. intros [[H1 H2]|[_ [H|[_ [H|[_ H]]]]]]; try lia; try congruence.
  rewrite lt_irrefl in H. discriminate.
Qed.

Lemma rankBefore_trans (a b c : SearchPage.Scored) :
  rankBefore a b -> rankBefore b c -> rankBefore a c.
Proof.
  unfold rankBefore.
  intros [[M1 M2]|[E1 H1]] [[M3 M4]|[E2 H2]].
  - congruence.
  - left. split; congruence.
  - left. split; congruence.
  - right. split; [congruence|].
    destruct H1 as [H1|[D1 H1]], H2 as [H2|[D2 H2]].
    + left. eapply lt_trans; eassumption.
    + left. congruence.
    + left. congruence.
    + right. split; [congruence|].
      destruct H1 as [H1|[Q1 H1]], H2 as [H2|[Q2 H2]]; [left; lia ..|].
      right. split; [congruence | lia].
Qed.

Lemma rankBefore_sameRank (a b c : SearchPage.Scored) :
  rankBefore a b -> sameRank b c -> rankBefore a c.
Proof.
  unfold rankBefore, sameRank. intros H (E1 & E2 & E3 & E4).
  now rewrite <- E1, <- E2, <- E3, <- E4.
Qed.

Section FourKeys.
Variable localeCompare : string -> string -> Z.

Lemma compareScored_rankBefore (s t : SearchPage.Scored) :
  rankBefore s t -> SearchPage.compareScored localeCompare s t < 0.
Proof.
  unfold rankBefore, SearchPage.compareScored. intros [[Hs Ht]|[He H]].
  - rewrite Hs, Ht. reflexivity.
  - rewrite He, Bool.eqb_reflx. cbn [negb].
    destruct H as [Hlt|[Ed H]].
    + apply lt_neq in Hlt as Hne. apply String.eqb_neq in Hne. now rewrite Hne, Hlt.
    + rewrite Ed, String.eqb_refl. cbn [negb].
      destruct H as [Hq|[Eq Hp]].
      * destruct (Z.eqb_spec (SearchPage.s_bestQuality s) (SearchPage.s_bestQuality t));
          cbn [negb]; lia.
      * rewrite Eq, Z.eqb_refl. cbn [negb].
        destruct (Z.eqb_spec (SearchPage.bestPrimaryPenalty s)
                    (SearchPage.bestPrimaryPenalty t)); cbn [negb]; lia.
Qed.

Lemma compareScored_rankBefore_flip (s t : SearchPage.Scored) :
  rankBefore s t -> 0 < SearchPage.compareScored localeCompare t s.
Proof.
  unfold rankBefore, SearchPage.compareScored. intros [[Hs Ht]|[He H]].
  - rewrite Hs, Ht. reflexivity.
  - rewrite He, Bool.eqb_reflx. cbn [negb].
    destruct H as [Hlt|[Ed H]].
    + apply lt_neq in Hlt as Hne. apply not_eq_sym, String.eqb_neq in Hne.
      apply lt_asym in Hlt. now rewrite Hne, Hlt.
    + rewrite Ed, String.eqb_refl. cbn [negb].
      destruct H as [Hq|[Eq Hp]].
      * destruct (Z.eqb_spec (SearchPage.s_bestQuality t) (SearchPage.s_bestQuality s));
          cbn [negb]; lia.
      * rewrite Eq, Z.eqb_refl. cbn [negb].
        destruct (Z.eqb_spec (SearchPage.bestPrimaryPenalty t)
                    (SearchPage.bestPrimaryPenalty s)); cbn [negb]; lia.
Qed.

(** What a comparator result that is not positive says of the four keys. *)
Lemma compareScored_nonpos (b c : SearchPage.Scored) :
  SearchPage.compareScored localeCompare b c <= 0 -> rankBefore b c \/ sameRank b c.
Proof.
  unfold SearchPage.compareScored, rankBefore, sameRank.
  destruct (SearchPage.artistMatch b) eqn:Mb, (SearchPage.artistMatch c) eqn:Mc;
    cbn [Bool.eqb negb]; try lia; auto;
    (destruct (String.eqb_spec (SearchPage.earliestDate b) (SearchPage.earliestDate c))
       as [Ed|Nd]; cbn [negb];
     [|destruct (JS.lt (SearchPage.earliestDate b) (SearchPage.earliestDate c)) eqn:L;
       [intros _; left; right; auto | lia]]);
    (destruct (Z.eqb_spec (SearchPage.s_bestQuality b) (SearchPage.s_bestQuality c))
       as [Eq|Nq]; cbn [negb];
     [|intro H; left; right; split; [reflexivity|]; right; split; [assumption|];
       left; lia]);
    (destruct (Z.eqb_spec (SearchPage.bestPrimaryPenalty b)
                (SearchPage.bestPrimaryPenalty c)) as [Ep|Np]; cbn [negb];
     [intros _; right; auto
     |intro H; left; right; split; [reflexivity|]; right; split; [assumption|];
      right; split; [assumption | lia]]).
Qed.

Lemma compareScored_rankBefore_through (a b c : SearchPage.Scored) :
  rankBefore a b -> SearchPage.compareScored localeCompare b c <= 0 -> rankBefore a c.
Proof.
  intros Hab Hbc. destruct (compareScored_nonpos b c Hbc) as [H|H].
  - eapply rankBefore_trans; eassumption.
  - eapply rankBefore_sameRank; eassumption.
Qed.

Lemma sorted_scored (recs : list SearchPage.MusicBrainzRecording) (q : string)
  (k : nat) (r : SearchPage.MusicBrainzRecording) :
  nth_error (SearchPage.rankRecordings localeCompare recs q) k = Some r ->
  nth_error (JS.sort (SearchPage.compareScored localeCompare)
               (map (SearchPage.score (JS.trim q)) recs)) k
  = Some (SearchPage.score (JS.trim q) r).
Proof.
  unfold SearchPage.rankRecordings. cbv zeta. set (sorted := JS.sort _ _).
  intro Hk. rewrite nth_error_map in Hk.
  destruct (nth_error sorted k) as [s|] eqn:Hs; [|discriminate].
  injection Hk as <-. f_equal.
  apply nth_error_In in Hs.
  apply (Permutation_in _ (Permutation_sym (sort_perm _ _))) in Hs.
  apply in_map_iff in Hs as (r0 & <- & _). now rewrite score_rec.
Qed.

Lemma rankRecordings_perm (recs : list SearchPage.MusicBrainzRecording) (q : string) :
  Permutation recs (SearchPage.rankRecordings localeCompare recs q).
Proof.
  unfold SearchPage.rankRecordings. cbv zeta.
  rewrite <- (sort_perm (SearchPage.compareScored localeCompare)).
  rewrite map_map.
  rewrite (map_ext _ (fun r => r)) by (intro; apply score_rec).
  now rewrite map_id.
Qed.

Lemma rank_positions_four_keys (recs : list SearchPage.MusicBrainzRecording) (q : string)
  (i j : nat) (a b : SearchPage.MusicBrainzRecording) :
  nth_error (SearchPage.rankRecordings localeCompare recs q) i = Some a ->
  nth_error (SearchPage.rankRecordings localeCompare recs q) j = Some b ->
  rankBefore (SearchPage.score (JS.trim q) a) (SearchPage.score (JS.trim q) b) ->
  (i < j)%nat.
Proof.
  intros Hi Hj HR. apply sorted_scored in Hi, Hj.
  eapply (sort_positions (SearchPage.compareScored localeCompare) rankBefore);
    eauto using compareScored_rankBefore, compareScored_rankBefore_flip,
      compareScored_rankBefore_through.
Qed.

End FourKeys.

(** X1.  [rankRecordings] returns a rearrangement of the recordings it is
    given: none is lost, none is added, none is repeated more often than in
    the input. *)
Theorem rankRecordings_permutation (localeCompare : string -> string -> Z)
  (recs : list SearchPage.MusicBrainzRecording) (q : string) :
  Permutation recs (SearchPage.rankRecordings localeCompare recs q).
Proof. apply rankRecordings_perm. Qed.

(** X2.  In the output of [rankRecordings] the four keys decide in their
    order, whatever the collation of the ids: a recording stands at a smaller
    index than another whenever it is before it by artist match, then
    earliest date key, then best quality, then best primacy. *)
Theorem rankRecordings_four_keys (localeCompare : string -> string -> Z)
  (recs : list SearchPage.MusicBrainzRecording) (q : string)
  (i j : nat) (a b : SearchPage.MusicBrainzRecording) :
  nth_error (SearchPage.rankRecordings localeCompare recs q) i = Some a ->
  nth_error (SearchPage.rankRecordings localeCompare recs q) j = Some b ->
  rankBefore (SearchPage.score (JS.trim q) a) (SearchPage.score (JS.trim q) b) ->
  (i < j)%nat.
Proof. apply rank_positions_four_keys. Qed.

Lemma rankRecordings_four_keys_witness : (0 < 1)%nat.
Proof.
  apply (rankRecordings_four_keys codeUnitCompare [recR2; recSameDay] "The Beatles"
           0 1 recSameDay recR2); [reflexivity | reflexivity |].
  right. split; [reflexivity|]. right. split; [reflexivity|].
  left. vm_compute. reflexivity.
Defined.

(* ------------------------------------------------------------------ *)
(** ** The keys of a recording *)

(** [a <= b <= c], with [x <= y] read as [not (y < x)]. *)
Lemma le_trans (a b c : string) :
  JS.lt b a = false -> JS.lt c b = false -> JS.lt c a = false.
Proof.
  intros Hab Hbc. destruct (JS.lt c a) eqn:Hca; [|reflexivity].
  rewrite (lt_le_trans c a b Hca Hab) in Hbc. discriminate.
Qed.

Lemma le_antisym (a b : string) : JS.lt a b = false -> JS.lt b a = false -> a = b.
Proof.
  intros H1 H2. destruct (String.eqb_spec a b) as [E|N]; [exact E|].
  destruct (lt_total a b N); congruence.
Qed.

Lemma earliest_unfold (rs : list SearchPage.MusicBrainzRelease) :
  SearchPage.getEarliestReleaseDate (Some rs) = fold_left earliestStep rs "9999-99-99".
Proof. reflexivity. Qed.

Lemma earliestStep_le_best (b : string) (r : SearchPage.MusicBrainzRelease) :
  JS.lt b (earliestStep b r) = false.
Proof.
  unfold earliestStep. cbv zeta.
  destruct (String.length (SearchPage.rawDate r) =? 0)%nat; [apply lt_irrefl|].
  destruct (JS.lt _ b) eqn:H; [now apply lt_asym | apply lt_irrefl].
Qed.

Lemma earliestStep_le_date (b : string) (r : SearchPage.MusicBrainzRelease) :
  SearchPage.rawDate r <> "" ->
  JS.lt (SearchPage.normalizePartialDate (SearchPage.rawDate r)) (earliestStep b r) = false.
Proof.
  intro Hraw. unfold earliestStep. cbv zeta.
  destruct (Nat.eqb_spec (String.length (SearchPage.rawDate r)) 0) as [E|_].
  { apply Nat.eqb_eq, str_length_zero in E. contradiction. }
  destruct (JS.lt _ b) eqn:H; [apply lt_irrefl | exact H].
Qed.

Lemma earliest_fold_le_init (rs : list SearchPage.MusicBrainzRelease) :
  forall b, JS.lt b (fold_left earliestStep rs b) = false.
Proof.
  induction rs as [|r rs IH]; intro b; cbn [fold_left]; [apply lt_irrefl|].
  eapply le_trans; [apply IH | apply earliestStep_le_best].
Qed.

Lemma earliest_fold_lower (rs : list SearchPage.MusicBrainzRelease)
  (x : SearchPage.MusicBrainzRelease) :
  In x rs -> SearchPage.rawDate x <> "" ->
  forall b,
    JS.lt (SearchPage.normalizePartialDate (SearchPage.rawDate x))
      (fold_left earliestStep rs b) = false.
Proof.
  intros Hin Hraw. induction rs as [|r rs IH]; [contradiction|].
  intro b. cbn [fold_left]. destruct Hin as [->|Hin]; [|now apply IH].
  eapply le_trans; [apply earliest_fold_le_init | now apply earliestStep_le_date].
Qed.

Lemma earliest_fold_attained (rs : list SearchPage.MusicBrainzRelease) :
  forall b,
    fold_left earliestStep rs b = b \/
    exists x, In x rs /\ SearchPage.rawDate x <> "" /\
              fold_left earliestStep rs b
              = SearchPage.normalizePartialDate (SearchPage.rawDate x).
Proof.
  induction rs as [|r rs IH]; intro b; cbn [fold_left]; [now left|].
  destruct (IH (earliestStep b r)) as [E|(x & Hx & Hraw & E)].
  - rewrite E. unfold earliestStep. cbv zeta.
    destruct (Nat.eqb_spec (String.length (SearchPage.rawDate r)) 0) as [_|N];
      [now left|].
    destruct (JS.lt _ b); [|now left].
    right. exists r. split; [now left|]. split; [|reflexivity].
    intro Hr. apply N. now rewrite Hr.
  - right. exists x. split; [now right|]. auto.
Qed.

Lemma dateKey_cases (x : SearchPage.MusicBrainzRelease) :
  (SearchPage.rawDate x = "" /\ SearchPage.dateKey x = "9999-99-99") \/
  (SearchPage.rawDate x <> "" /\
   SearchPage.dateKey x = SearchPage.normalizePartialDate (SearchPage.rawDate x)).
Proof.
  unfold SearchPage.dateKey. cbv zeta.
  destruct (SearchPage.rawDate x) as [|c s]; [left | right]; split;
    try reflexivity; discriminate.
Qed.

(** The earliest date key of a list is below or at the date key of each of
    its releases. *)
Lemma earliest_le_dateKey (rs : list SearchPage.MusicBrainzRelease)
  (x : SearchPage.MusicBrainzRelease) :
  In x rs ->
  JS.lt (SearchPage.dateKey x) (SearchPage.getEarliestReleaseDate (Some rs)) = false.
Proof.
  intro Hin. rewrite earliest_unfold.
  destruct (dateKey_cases x) as [[_ ->]|[Hraw ->]].
  - apply earliest_fold_le_init.
  - now apply earliest_fold_lower.
Qed.

(** X3.  [getEarliestReleaseDate] is the least of ["9999-99-99"] and the
    normalized non-blank dates of the releases: it is not above
    ["9999-99-99"] nor above the normalized date of any release with a
    non-blank date, it is one of these strings, and so it does not depend on
    the order of the releases. *)
Theorem getEarliestReleaseDate_least (rs : list SearchPage.MusicBrainzRelease) :
  let e := SearchPage.getEarliestReleaseDate (Some rs) in
  JS.lt "9999-99-99" e = false /\
  (forall x, In x rs -> SearchPage.rawDate x <> "" ->
             JS.lt (SearchPage.normalizePartialDate (SearchPage.rawDate x)) e = false) /\
  (e = "9999-99-99" \/
   exists x, In x rs /\ SearchPage.rawDate x <> "" /\
             e = SearchPage.normalizePartialDate (SearchPage.rawDate x)) /\
  (forall rs', Permutation rs rs' -> SearchPage.getEarliestReleaseDate (Some rs') = e).
Proof.
  cbv zeta. rewrite earliest_unfold.
  split; [apply earliest_fold_le_init|].
  split; [intros x Hx Hraw; now apply earliest_fold_lower|].
  split; [apply earliest_fold_attained|].
  intros rs' Hperm. rewrite earliest_unfold.
  apply le_antisym.
  - destruct (earliest_fold_attained rs' "9999-99-99") as [->|(x & Hx & Hraw & ->)].
    + apply earliest_fold_le_init.
    + apply earliest_fold_lower; [|assumption].
      eapply Permutation_in; [apply Permutation_sym|]; eassumption.
  - destruct (earliest_fold_attained rs "9999-99-99") as [->|(x & Hx & Hraw & ->)].
    + apply earliest_fold_le_init.
    + apply earliest_fold_lower; [|assumption].
      eapply Permutation_in; eassumption.
Qed.

Lemma getEarliestReleaseDate_least_witness :
  JS.lt (SearchPage.normalizePartialDate (SearchPage.rawDate rel1965))
    (SearchPage.getEarliestReleaseDate (Some [rel19651203; relBlank; rel1965])) = false /\
  SearchPage.getEarliestReleaseDate (Some [rel1965; relBlank; rel19651203])
  = SearchPage.getEarliestReleaseDate (Some [rel19651203; relBlank; rel1965]).
Proof.
  destruct (getEarliestReleaseDate_least [rel19651203; relBlank; rel1965])
    as (_ & Hlow & _ & Hperm).
  split.
  - apply Hlow; [simpl; auto | vm_compute; discriminate].
  - apply Hperm. apply Permutation_rev with (l := [rel19651203; relBlank; rel1965]).
Defined.

(** X4.  The earliest date key the ranker gives a recording and the date
    key of the release the selector picks from the same list: the first is
    never above the second; they are equal when the picked release's key is
    not above ["9999-99-99"], and otherwise the earliest date key is
    ["9999-99-99"]. *)
Theorem earliest_date_and_canonical_release
  (rs : list SearchPage.MusicBrainzRelease) (m : SearchPage.MusicBrainzRelease) :
  SearchPage.pickCanonicalRelease (Some rs) = Some m ->
  let e := SearchPage.getEarliestReleaseDate (Some rs) in
  JS.lt (SearchPage.dateKey m) e = false /\
  (JS.lt "9999-99-99" (SearchPage.dateKey m) = false -> e = SearchPage.dateKey m) /\
  (JS.lt "9999-99-99" (SearchPage.dateKey m) = true -> e = "9999-99-99").
Proof.
  intros Hpick e.
  assert (Hin : In m rs).
  { destruct rs as [|r rs]; [discriminate|].
    destruct (pickCanonicalRelease_first_min (r :: rs)) as (l1 & m' & l2 & Hs & Hp & _);
      [discriminate|].
    rewrite Hp in Hpick. injection Hpick as ->. rewrite Hs. apply in_elt. }
  assert (Hle : JS.lt (SearchPage.dateKey m) e = false) by now apply earliest_le_dateKey.
  assert (Hcases : e = "9999-99-99" \/
                   exists x, In x rs /\ e = SearchPage.dateKey x).
  { subst e. rewrite earliest_unfold.
    destruct (earliest_fold_attained rs "9999-99-99") as [E|(x & Hx & Hraw & E)];
      [now left|].
    right. exists x. split; [assumption|]. rewrite E.
    destruct (dateKey_cases x) as [[? _]|[_ ->]]; [contradiction | reflexivity]. }
  split; [exact Hle|]. split.
  - intro Hm. apply le_antisym; [|exact Hle].
    destruct Hcases as [->|(x & Hx & ->)]; [exact Hm|].
    now apply (winner_has_least_date rs m x).
  - intro Hm. destruct Hcases as [E|(x & Hx & E)]; [exact E|].
    exfalso.
    pose proof (winner_has_least_date rs m x Hpick Hx) as Hmx.
    pose proof (earliest_fold_le_init rs "9999-99-99") as Hs.
    rewrite <- earliest_unfold in Hs. fold e in Hs. rewrite E in Hs.
    rewrite (lt_le_trans _ _ _ Hm Hmx) in Hs. discriminate.
Qed.

Lemma earliest_date_and_canonical_release_witness :
  SearchPage.getEarliestReleaseDate (Some [rel19651203; relBlank; rel1965])
  = SearchPage.dateKey rel1965.
Proof.
  apply (earliest_date_and_canonical_release [rel19651203; relBlank; rel1965] rel1965);
    reflexivity.
Defined.

Lemma best_fold (rs : list SearchPage.MusicBrainzRelease) :
  forall a b,
    let bq := fst (fold_left bestStep rs (a, b)) in
    let bp := snd (fold_left bestStep rs (a, b)) in
    (bq <= a /\
     (forall x, In x rs -> bq <= SearchPage.getReleaseQualityPenalty x) /\
     (bq = a \/ exists x, In x rs /\ bq = SearchPage.getReleaseQualityPenalty x)) /\
    (bp <= b /\
     (forall x, In x rs -> bp <= SearchPage.getPrimaryReleaseGroupPenalty x) /\
     (bp = b \/ exists x, In x rs /\ bp = SearchPage.getPrimaryReleaseGroupPenalty x)).
Proof.
  induction rs as [|r rs IH]; intros a b; cbn [fold_left].
  - cbn. repeat split; try lia; try contradiction; now left.
  - cbn [bestStep].
    set (a' := if SearchPage.getReleaseQualityPenalty r <? a
               then SearchPage.getReleaseQualityPenalty r else a).
    set (b' := if SearchPage.getPrimaryReleaseGroupPenalty r <? b
               then SearchPage.getPrimaryReleaseGroupPenalty r else b).
    destruct (IH a' b') as ((Ha & Hqa & Hqe) & (Hb & Hpa & Hpe)).
    assert (Ha' : a' <= a /\ a' <= SearchPage.getReleaseQualityPenalty r /\
                  (a' = a \/ a' = SearchPage.getReleaseQualityPenalty r)).
    { subst a'. destruct (Z.ltb_spec (SearchPage.getReleaseQualityPenalty r) a); lia. }
    assert (Hb' : b' <= b /\ b' <= SearchPage.getPrimaryReleaseGroupPenalty r /\
                  (b' = b \/ b' = SearchPage.getPrimaryReleaseGroupPenalty r)).
    { subst b'. destruct (Z.ltb_spec (SearchPage.getPrimaryReleaseGroupPenalty r) b); lia. }
    cbv zeta. split; (split; [lia|]); split.
    + intros x [<-|Hx]; [lia | now apply Hqa].
    + destruct Hqe as [E|(x & Hx & E)].
      * destruct Ha' as (_ & _ & [E'|E']); [left; lia|].
        right. exists r. split; [now left | lia].
      * right. exists x. split; [now right | exact E].
    + intros x [<-|Hx]; [lia | now apply Hpa].
    + destruct Hpe as [E|(x & Hx & E)].
      * destruct Hb' as (_ & _ & [E'|E']); [left; lia|].
        right. exists r. split; [now left | lia].
      * right. exists x. split; [now right | exact E].
Qed.

Lemma fold_left_pointwise {A B : Type} (f g : A -> B -> A) (l : list B) :
  (forall a b, f a b = g a b) -> forall a, fold_left f l a = fold_left g l a.
Proof.
  intro H. induction l as [|b l IH]; intro a; cbn [fold_left]; [reflexivity|].
  now rewrite H, IH.
Qed.

Lemma score_best (artist : string) (r : SearchPage.MusicBrainzRecording) :
  SearchPage.s_bestQuality (SearchPage.score artist r)
  = (let bq := fst (fold_left bestStep (releasesOf r) (9999, 9999)) in
     if bq =? 9999 then 999 else bq) /\
  SearchPage.bestPrimaryPenalty (SearchPage.score artist r)
  = (let bp := snd (fold_left bestStep (releasesOf r) (9999, 9999)) in
     if bp =? 9999 then 99 else bp).
Proof.
  unfold SearchPage.score. fold (releasesOf r).
  rewrite (fold_left_pointwise _ bestStep) by (intros [bq bp] x; reflexivity).
  destruct (fold_left bestStep _ _) as [bq bp]. split; reflexivity.
Qed.

(** X5.  For a recording with at least one release, the best quality and
    the best primacy of its score are the least quality penalty and the
    least primacy penalty over its releases, each taken on its own: each is
    reached by some release and is above none. *)
Theorem score_is_least_penalty (artist : string) (r : SearchPage.MusicBrainzRecording)
  (rs : list SearchPage.MusicBrainzRelease) :
  SearchPage.releases r = Some rs -> rs <> [] ->
  let s := SearchPage.score artist r in
  (forall x, In x rs -> SearchPage.s_bestQuality s <= SearchPage.getReleaseQualityPenalty x) /\
  (exists x, In x rs /\ SearchPage.s_bestQuality s = SearchPage.getReleaseQualityPenalty x) /\
  (forall x, In x rs ->
             SearchPage.bestPrimaryPenalty s <= SearchPage.getPrimaryReleaseGroupPenalty x) /\
  (exists x, In x rs /\
             SearchPage.bestPrimaryPenalty s = SearchPage.getPrimaryReleaseGroupPenalty x).
Proof.
  intros Hrs Hne s. subst s.
  destruct (score_best artist r) as [-> ->]. unfold releasesOf. rewrite Hrs.
  destruct (best_fold rs 9999 9999) as ((Ha & Hqa & Hqe) & (Hb & Hpa & Hpe)).
  cbv zeta in *.
  destruct rs as [|x0 rs]; [congruence|].
  pose proof (getReleaseQualityPenalty_bounds x0) as Bq.
  pose proof (getPrimaryReleaseGroupPenalty_bounds x0) as Bp.
  pose proof (Hqa x0 (or_introl eq_refl)) as Hq0.
  pose proof (Hpa x0 (or_introl eq_refl)) as Hp0.
  destruct (Z.eqb_spec (fst (fold_left bestStep (x0 :: rs) (9999, 9999))) 9999) as [E|_];
    [lia|].
  destruct (Z.eqb_spec (snd (fold_left bestStep (x0 :: rs) (9999, 9999))) 9999) as [E|_];
    [lia|].
  split; [exact Hqa|]. split; [destruct Hqe as [E|H]; [lia | exact H]|].
  split; [exact Hpa|]. destruct Hpe as [E|H]; [lia | exact H].
Qed.

Lemma score_is_least_penalty_witness :
  SearchPage.s_bestQuality (SearchPage.score "x" recTwo)
  <= SearchPage.getReleaseQualityPenalty rel19651203.
Proof.
  destruct (score_is_least_penalty "x" recTwo [rel19651203; rel1965] eq_refl)
    as (H & _); [discriminate|].
  apply H. now left.
Defined.

(* ------------------------------------------------------------------ *)
(** ** The canonical match and the search *)

Lemma pickCanonicalRelease_in (r : SearchPage.MusicBrainzRecording)
  (m : SearchPage.MusicBrainzRelease) :
  SearchPage.pickCanonicalRelease (SearchPage.releases r) = Some m -> In m (releasesOf r).
Proof.
  unfold releasesOf. destruct (SearchPage.releases r) as [[|x rs]|]; try discriminate.
  intro Hp.
  destruct (pickCanonicalRelease_first_min (x :: rs)) as (l1 & m' & l2 & Hs & Hp' & _);
    [discriminate|].
  rewrite Hp' in Hp. injection Hp as ->. rewrite Hs. apply in_elt.
Qed.

Lemma pickCanonicalRelease_none (r : SearchPage.MusicBrainzRecording) :
  SearchPage.pickCanonicalRelease (SearchPage.releases r) = None <-> releasesOf r = [].
Proof.
  unfold releasesOf. destruct (SearchPage.releases r) as [[|x rs]|];
    try (split; reflexivity).
  rewrite pickCanonicalRelease_cons. split; discriminate.
Qed.

(** X6.  The release-group summary of [toCanonicalMatch] is absent exactly
    when the recording has no release or the release the selector picks has
    no release-group, whatever the other releases have; when present, it
    copies id, title, primary type and secondary types of the release-group
    of the picked release, which is one of the recording's releases. *)
Theorem toCanonicalMatch_release_group (r : SearchPage.MusicBrainzRecording) :
  let c := SearchPage.toCanonicalMatch r in
  (SearchPage.releaseGroup c = None <->
   releasesOf r = [] \/
   exists m, SearchPage.pickCanonicalRelease (SearchPage.releases r) = Some m /\
             SearchPage.release_group m = None) /\
  (forall s,
     SearchPage.releaseGroup c = Some s <->
     exists m g,
       In m (releasesOf r) /\
       SearchPage.pickCanonicalRelease (SearchPage.releases r) = Some m /\
       SearchPage.release_group m = Some g /\ s = summaryOf g).
Proof.
  cbv zeta. unfold SearchPage.toCanonicalMatch. cbv zeta.
  cbn [SearchPage.releaseGroup].
  destruct (SearchPage.pickCanonicalRelease (SearchPage.releases r)) as [m|] eqn:Hp.
  - pose proof (pickCanonicalRelease_in r m Hp) as Hin.
    destruct (SearchPage.release_group m) as [g|] eqn:Hg; split.
    + split; [discriminate|]. intros [He|(m' & Hm' & Hg')].
      * rewrite He in Hin. contradiction.
      * injection Hm' as <-. congruence.
    + intro s. split.
      * intro E. injection E as <-. exists m, g. auto.
      * intros (m' & g' & _ & Hm' & Hg' & ->). injection Hm' as <-.
        rewrite Hg in Hg'. injection Hg' as <-. reflexivity.
    + split; [|reflexivity]. intros _. right. exists m. auto.
    + intro s. split; [discriminate|].
      intros (m' & g' & _ & Hm' & Hg' & _). injection Hm' as <-. congruence.
  - apply pickCanonicalRelease_none in Hp. split.
    + split; [auto | reflexivity].
    + intro s. split; [discriminate|]. intros (m & g & _ & Hm & _). discriminate.
Qed.

Section SearchFacts.
Variable localeCompare : string -> string -> Z.

(** The head of the ranked list: no recording of the input is before it by
    the four keys. *)
Lemma rank_head (recs : list SearchPage.MusicBrainzRecording) (q : string) :
  recs <> [] ->
  exists best rest,
    SearchPage.rankRecordings localeCompare recs q = best :: rest /\
    In best recs /\
    forall r, In r recs ->
              ~ rankBefore (SearchPage.score (JS.trim q) r) (SearchPage.score (JS.trim q) best).
Proof.
  intro Hne.
  pose proof (rankRecordings_perm localeCompare recs q) as Hperm.
  destruct (SearchPage.rankRecordings localeCompare recs q) as [|best rest] eqn:Hout.
  { apply Permutation_sym, Permutation_nil in Hperm. contradiction. }
  exists best, rest. split; [reflexivity|]. split.
  - eapply Permutation_in; [apply Permutation_sym; exact Hperm | now left].
  - intros r Hr HR.
    apply (Permutation_in _ Hperm) in Hr. apply In_nth_error in Hr as [j Hj].
    rewrite <- Hout in Hj.
    assert (H0 : nth_error (SearchPage.rankRecordings localeCompare recs q) 0 = Some best)
      by now rewrite Hout.
    pose proof (rank_positions_four_keys localeCompare recs q j 0 r best Hj H0 HR). lia.
Qed.

Lemma runSearchTry_ok (artist : string)
  (res : Response SearchPage.MusicBrainzRecordingResponse) :
  ok res = true ->
  SearchPage.runSearchTry localeCompare artist res
  = match SearchPage.rankRecordings localeCompare (recordingsOf (json res)) artist with
    | [] => Throw "No canonical match found."
    | best :: _ => Normal (SearchPage.toCanonicalMatch best)
    end.
Proof. intro Hok. unfold SearchPage.runSearchTry. now rewrite Hok. Qed.

End SearchFacts.

(** X7.  On a successful response the search throws ["No canonical match
    found."] exactly when the response has no recording (the list absent or
    empty).  Otherwise it yields the canonical match of a recording of the
    response that no other recording of the response is before by the four
    keys; in particular, when some recording of the response matches the
    artist exactly, the chosen one does. *)
Theorem runSearchTry_success (localeCompare : string -> string -> Z) (artist : string)
  (res : Response SearchPage.MusicBrainzRecordingResponse) :
  ok res = true ->
  (SearchPage.runSearchTry localeCompare artist res = Throw "No canonical match found."
   <-> recordingsOf (json res) = []) /\
  (recordingsOf (json res) <> [] ->
   exists best,
     In best (recordingsOf (json res)) /\
     SearchPage.runSearchTry localeCompare artist res
     = Normal (SearchPage.toCanonicalMatch best) /\
     (forall r, In r (recordingsOf (json res)) ->
                ~ rankBefore (SearchPage.score (JS.trim artist) r)
                    (SearchPage.score (JS.trim artist) best)) /\
     ((exists r, In r (recordingsOf (json res)) /\
                 SearchPage.isExactArtistMatch r (JS.trim artist) = true) ->
      SearchPage.isExactArtistMatch best (JS.trim artist) = true)).
Proof.
  intro Hok. rewrite (runSearchTry_ok localeCompare artist res Hok).
  destruct (recordingsOf (json res)) as [|r0 recs] eqn:Hrecs.
  - split; [split; reflexivity | congruence].
  - destruct (rank_head localeCompare (r0 :: recs) artist) as (best & rest & -> & Hin & Hmin);
      [discriminate|].
    split; [split; discriminate|]. intros _.
    exists best. repeat (split; [assumption || reflexivity|]).
    intros (r & Hr & Hm).
    destruct (SearchPage.isExactArtistMatch best (JS.trim artist)) eqn:Hb; [reflexivity|].
    exfalso. apply (Hmin r Hr). left. now rewrite !score_artistMatch.
Qed.

Lemma runSearchTry_success_witness :
  SearchPage.runSearchTry codeUnitCompare "the beatles" okResponse
  = Normal (SearchPage.toCanonicalMatch recR2) /\
  SearchPage.runSearchTry codeUnitCompare "the beatles" emptyResponse
  = Throw "No canonical match found.".
Proof.
  split.
  - destruct (runSearchTry_success codeUnitCompare "the beatles" okResponse eq_refl)
      as (_ & H).
    destruct H as (best & Hin & -> & _ & Hmatch); [discriminate|].
    destruct Hin as [<-|[<-|[]]]; [|reflexivity].
    exfalso. assert (Hm : SearchPage.isExactArtistMatch recCover (JS.trim "the beatles") = true).
    { apply Hmatch. exists recR2. split; [simpl; auto | reflexivity]. }
    vm_compute in Hm. discriminate.
  - apply (runSearchTry_success codeUnitCompare "the beatles" emptyResponse eq_refl).
    reflexivity.
Defined.

(* ------------------------------------------------------------------ *)
(** ** The query and the state of the page *)

Lemma trim_first_nonspace (c : ascii) (s : string) :
  JS.isWhiteSpace c = false -> JS.trim (String c s) <> "".
Proof.
  intro Hc. unfold JS.trim. cbn [JS.trimStart]. rewrite Hc. cbn [JS.trimEnd].
  destruct (JS.trimEnd s); [rewrite Hc|]; discriminate.
Qed.

Lemma query_of_blank_fields (title artist : string) :
  JS.trim title = "" -> JS.trim artist = "" ->
  SearchPage.buildRecordingSearchQuery title artist = "".
Proof.
  intros Ht Ha. unfold SearchPage.buildRecordingSearchQuery. cbv zeta.
  now rewrite Ht, Ha.
Qed.

Lemma query_of_filled_fields (title artist : string) :
  JS.trim title <> "" \/ JS.trim artist <> "" ->
  exists c s,
    SearchPage.buildRecordingSearchQuery title artist = String c s /\
    JS.isWhiteSpace c = false.
Proof.
  intro H. unfold SearchPage.buildRecordingSearchQuery. cbv zeta.
  destruct (JS.trim title) as [|ct t] eqn:Ht, (JS.trim artist) as [|ca a] eqn:Ha;
    [destruct H; congruence | ..];
    cbn [String.length Nat.ltb Nat.leb List.app JS.join String.concat append];
    eexists; eexists; split; reflexivity.
Qed.

(** X8.  [buildRecordingSearchQuery] returns the empty string exactly when
    title and artist are both white space only; in every other case the
    query is not emptied by trimming, so [runSearch] goes on to the
    request. *)
Theorem query_empty_iff_blank (title artist : string) :
  (SearchPage.buildRecordingSearchQuery title artist = "" <->
   allWhiteSpace title = true /\ allWhiteSpace artist = true) /\
  (JS.trim (SearchPage.buildRecordingSearchQuery title artist) = "" <->
   SearchPage.buildRecordingSearchQuery title artist = "").
Proof.
  assert (Hcases : (JS.trim title = "" /\ JS.trim artist = "") \/
                   (JS.trim title <> "" \/ JS.trim artist <> "")).
  { destruct (JS.trim title); [|right; left; discriminate].
    destruct (JS.trim artist); [left; auto | right; right; discriminate]. }
  rewrite <- !trim_empty.
  destruct Hcases as [[Ht Ha]|Hfilled].
  - rewrite (query_of_blank_fields title artist Ht Ha). repeat split; assumption.
  - destruct (query_of_filled_fields title artist Hfilled) as (c & s & -> & Hc).
    split; split; try discriminate.
    + intros [Ht Ha]. destruct Hfilled; contradiction.
    + intro E. now apply trim_first_nonspace in E.
Qed.

Section PageFacts.
Variable localeCompare : string -> string -> Z.

Lemma runSearch_blank (st : SearchPage.PageState) (title artist : string)
  (outcome : SearchPage.FetchOutcome) :
  allWhiteSpace title = true -> allWhiteSpace artist = true ->
  SearchPage.runSearch localeCompare st title artist outcome
  = SearchPage.mkPage (SearchPage.isLoading st) None None None.
Proof.
  intros Ht Ha. apply trim_empty in Ht, Ha. unfold SearchPage.runSearch. cbv zeta.
  now rewrite (query_of_blank_fields title artist Ht Ha).
Qed.

Lemma runSearch_filled (st : SearchPage.PageState) (title artist : string)
  (outcome : SearchPage.FetchOutcome) :
  allWhiteSpace title = false \/ allWhiteSpace artist = false ->
  SearchPage.runSearch localeCompare st title artist outcome
  = match match outcome with
          | SearchPage.Rejected e => Throw (errorMessage e)
          | SearchPage.Resolved res => SearchPage.runSearchTry localeCompare artist res
          end with
    | Normal next => SearchPage.mkPage false None (Some next) (Some next)
    | Throw message => SearchPage.mkPage false (Some message) None None
    end.
Proof.
  intro H. unfold SearchPage.runSearch. cbv zeta.
  destruct (query_of_filled_fields title artist) as (c & s & -> & Hc).
  { destruct H as [H|H]; [left | right]; intro E; apply trim_empty in E; congruence. }
  destruct (Nat.eqb_spec (String.length (JS.trim (String c s))) 0) as [E|_]; [|reflexivity].
  apply Nat.eqb_eq, str_length_zero in E. now apply trim_first_nonspace in E.
Qed.

End PageFacts.

Lemma settled_state (attempt : Completion SearchPage.CanonicalMatch) :
  let st' := match attempt with
             | Normal next => SearchPage.mkPage false None (Some next) (Some next)
             | Throw message => SearchPage.mkPage false (Some message) None None
             end in
  SearchPage.storedMatch st' = SearchPage.canonical st' /\
  (SearchPage.error st' = None \/ SearchPage.canonical st' = None) /\
  SearchPage.isLoading st' = false /\
  (SearchPage.error st' = None <-> SearchPage.canonical st' <> None) /\
  (forall m, attempt = Throw m -> SearchPage.error st' = Some m).
Proof.
  destruct attempt as [next|m]; cbn.
  - split; [reflexivity|]. split; [now left|]. split; [reflexivity|].
    split; [split; [discriminate | reflexivity] | discriminate].
  - split; [reflexivity|]. split; [now right|]. split; [reflexivity|].
    split; [split; [discriminate | congruence] | congruence].
Qed.

(** X9.  After [runSearch] the stored match is the canonical match of the
    state, and an error and a canonical match are never there together.
    With both fields blank no request is looked at: error, match and stored
    match are cleared and the loading flag is left as it was.  Otherwise the
    loading flag ends false, there is an error exactly when there is no
    canonical match, a rejected request leaves the message of what it threw
    (["Unknown error"] for a value that is no [Error]), and a response that
    is not a success leaves [Request failed (<status>)]. *)
Theorem runSearch_state (localeCompare : string -> string -> Z)
  (st : SearchPage.PageState) (title artist : string)
  (outcome : SearchPage.FetchOutcome) :
  let st' := SearchPage.runSearch localeCompare st title artist outcome in
  SearchPage.storedMatch st' = SearchPage.canonical st' /\
  (SearchPage.error st' = None \/ SearchPage.canonical st' = None) /\
  (allWhiteSpace title = true -> allWhiteSpace artist = true ->
   SearchPage.error st' = None /\ SearchPage.canonical st' = None /\
   SearchPage.isLoading st' = SearchPage.isLoading st) /\
  (allWhiteSpace title = false \/ allWhiteSpace artist = false ->
   SearchPage.isLoading st' = false /\
   (SearchPage.error st' = None <-> SearchPage.canonical st' <> None) /\
   (forall e, outcome = SearchPage.Rejected e ->
              SearchPage.error st' = Some (errorMessage e)) /\
   (forall res, outcome = SearchPage.Resolved res -> ok res = false ->
                SearchPage.error st' = Some (requestFailed (status res)))).
Proof.
  cbv zeta.
  assert (Hcases : (allWhiteSpace title = true /\ allWhiteSpace artist = true) \/
                   (allWhiteSpace title = false \/ allWhiteSpace artist = false)).
  { destruct (allWhiteSpace title), (allWhiteSpace artist); auto. }
  destruct Hcases as [[Ht Ha]|Hfilled].
  - rewrite (runSearch_blank localeCompare st title artist outcome Ht Ha). cbn.
    split; [reflexivity|]. split; [now left|]. split; [auto|].
    intros [H|H]; congruence.
  - rewrite (runSearch_filled localeCompare st title artist outcome Hfilled).
    set (attempt := match outcome with
                    | SearchPage.Rejected e => Throw (errorMessage e)
                    | SearchPage.Resolved res =>
                        SearchPage.runSearchTry localeCompare artist res
                    end).
    destruct (settled_state attempt) as (Hs & Hx & Hl & Hiff & Hthrow).
    split; [exact Hs|]. split; [exact Hx|]. split.
    { intros Ht Ha. destruct Hfilled; congruence. }
    intros _. split; [exact Hl|]. split; [exact Hiff|]. split.
    + intros e He. apply Hthrow. subst attempt. now rewrite He.
    + intros res Hres Hok. apply Hthrow. subst attempt. rewrite Hres.
      unfold SearchPage.runSearchTry. now rewrite Hok.
Qed.

Lemma runSearch_state_witness :
  SearchPage.runSearch codeUnitCompare idlePage "  " "" (SearchPage.Resolved okResponse)
  = SearchPage.mkPage false None None None /\
  SearchPage.error
    (SearchPage.runSearch codeUnitCompare idlePage "Yesterday" ""
       (SearchPage.Rejected OtherValue)) = Some "Unknown error" /\
  SearchPage.error
    (SearchPage.runSearch codeUnitCompare idlePage "Yesterday" ""
       (SearchPage.Resolved (mkResponse false 503 (SearchPage.mkSearchResponse None None None))))
  = Some "Request failed (503)".
Proof.
  split; [|split].
  - destruct (runSearch_state codeUnitCompare idlePage "  " "" (SearchPage.Resolved okResponse))
      as (Hs & _ & Hblank & _).
    destruct (Hblank eq_refl eq_refl) as (He & Hc & Hl).
    destruct (SearchPage.runSearch codeUnitCompare idlePage "  " ""
                (SearchPage.Resolved okResponse)) as [l e c sm].
    cbn in *. now subst.
  - destruct (runSearch_state codeUnitCompare idlePage "Yesterday" ""
                (SearchPage.Rejected OtherValue)) as (_ & _ & _ & H).
    destruct (H (or_introl eq_refl)) as (_ & _ & Hrej & _).
    apply (Hrej OtherValue eq_refl).
  - destruct (runSearch_state codeUnitCompare idlePage "Yesterday" ""
                (SearchPage.Resolved
                   (mkResponse false 503 (SearchPage.mkSearchResponse None None None))))
      as (_ & _ & _ & H).
    destruct (H (or_introl eq_refl)) as (_ & _ & _ & Hfail).
    apply (Hfail _ eq_refl eq_refl).
Defined.

(* ------------------------------------------------------------------ *)
(** ** Escaping *)

Lemma escapeEach_noLeadingQuote (v : string) : noLeadingQuote (escapeEach v).
Proof.
  destruct v as [|c v]; [exact I|].
  cbn [escapeEach]. unfold escapeChar.
  destruct (Ascii.eqb_spec c JS.dquote) as [->|N]; cbn; [discriminate | exact N].
Qed.

Lemma escapeEach_quotesEscaped (v : string) :
  forall prev, quotesEscaped prev (escapeEach v) = true.
Proof.
  induction v as [|c v IH]; intro prev; [reflexivity|].
  cbn [escapeEach]. unfold escapeChar.
  destruct (Ascii.eqb_spec c JS.dquote) as [->|N].
  - cbn. apply IH.
  - cbn [append quotesEscaped].
    apply Ascii.eqb_neq in N. rewrite N. cbn [andb]. apply IH.
Qed.

Lemma unescape_escapeEach (v : string) : unescape (escapeEach v) = v.
Proof.
  induction v as [|c v IH]; [reflexivity|].
  cbn [escapeEach]. unfold escapeChar.
  destruct (Ascii.eqb_spec c JS.dquote) as [->|N].
  - cbn. now rewrite IH.
  - cbn [append]. pose proof (escapeEach_noLeadingQuote v) as Hq.
    destruct (escapeEach v) as [|d e] eqn:He.
    + cbn. destruct v as [|x v]; [reflexivity|].
      cbn [escapeEach] in He. unfold escapeChar in He.
      destruct (Ascii.eqb x JS.dquote); discriminate.
    + cbn [noLeadingQuote] in Hq. apply Ascii.eqb_neq in Hq.
      change (unescape (String c (String d e)))
        with (if Ascii.eqb c JS.backslash && Ascii.eqb d JS.dquote
              then String d (unescape e)
              else String c (unescape (String d e))).
      rewrite Hq, andb_false_r. now rewrite IH.
Qed.

(** X10.  In an escaped value every double quote comes right after a
    backslash, and no two values have the same escaped form: the value is
    recovered by taking the backslash away in front of each double quote. *)
Theorem escapeQueryValue_quotes (v : string) :
  quotesEscaped false (SearchPage.escapeQueryValue v) = true /\
  unescape (SearchPage.escapeQueryValue v) = v /\
  (forall w, SearchPage.escapeQueryValue w = SearchPage.escapeQueryValue v -> w = v).
Proof.
  rewrite escapeQueryValue_each. split; [apply escapeEach_quotesEscaped|].
  split; [apply unescape_escapeEach|].
  intros w E. rewrite escapeQueryValue_each in E.
  rewrite <- (unescape_escapeEach w), E. apply unescape_escapeEach.
Qed.

(* ------------------------------------------------------------------ *)
(** ** Artist names *)

Lemma allWhiteSpace_app (a b : string) :
  allWhiteSpace (a ++ b) = allWhiteSpace a && allWhiteSpace b.
Proof.
  induction a as [|c a IH]; cbn; [reflexivity|]. now rewrite IH, andb_assoc.
Qed.

Lemma nonBlankStrings_not_blank (vs : list (option string)) (s : string) :
  In s (SearchPage.nonBlankStrings vs) -> allWhiteSpace s = false.
Proof.
  unfold SearchPage.nonBlankStrings. rewrite in_flat_map.
  intros ([x|] & _ & Hin); [|contradiction].
  destruct (Nat.ltb_spec 0 (String.length (JS.trim x))) as [Hpos|_]; [|contradiction].
  destruct Hin as [<-|[]].
  destruct (allWhiteSpace x) eqn:Hb; [|reflexivity].
  apply trim_empty in Hb. rewrite Hb in Hpos. cbn in Hpos. lia.
Qed.

Lemma nonBlankStrings_in (vs : list (option string)) (s : string) :
  In (Some s) vs -> allWhiteSpace s = false -> In s (SearchPage.nonBlankStrings vs).
Proof.
  intros Hin Hb. unfold SearchPage.nonBlankStrings. rewrite in_flat_map.
  exists (Some s). split; [assumption|].
  destruct (Nat.ltb_spec 0 (String.length (JS.trim s))) as [_|Hz]; [now left|].
  assert (E : JS.trim s = "") by (destruct (JS.trim s); [reflexivity | cbn in Hz; lia]).
  apply trim_empty in E. congruence.
Qed.

Lemma join_not_blank (sep x : string) (xs : list string) :
  allWhiteSpace x = false -> allWhiteSpace (JS.join sep (x :: xs)) = false.
Proof.
  intro Hx. unfold JS.join. cbn [String.concat].
  destruct xs; [exact Hx|]. now rewrite allWhiteSpace_app, Hx.
Qed.

Lemma getArtistNames_same (r : SearchPage.MusicBrainzRecording) :
  RecordingPage.getArtistNames (SearchPage.artist_credit r) = SearchPage.getArtistName r.
Proof.
  unfold RecordingPage.getArtistNames, SearchPage.getArtistName.
  destruct (SearchPage.artist_credit r) as [[|c cs]|]; try reflexivity.
  cbv zeta. now destruct (SearchPage.nonBlankStrings _).
Qed.

(** X11.  The artist line is never blank.  It is ["Unknown artist"] when no
    credit has a display name (its own name, or the referenced artist's name
    when it has no name of its own) that is not blank; otherwise it is the
    non-blank display names, in the order of the credits, joined by [", "].
    The search page and the recording page compute the same line. *)
Theorem getArtistName_never_blank (r : SearchPage.MusicBrainzRecording) :
  allWhiteSpace (SearchPage.getArtistName r) = false /\
  RecordingPage.getArtistNames (SearchPage.artist_credit r) = SearchPage.getArtistName r /\
  ((forall c n, In c (creditsOf r) -> SearchPage.creditDisplayName c = Some n ->
                allWhiteSpace n = true) ->
   SearchPage.getArtistName r = "Unknown artist") /\
  ((exists c n, In c (creditsOf r) /\ SearchPage.creditDisplayName c = Some n /\
                allWhiteSpace n = false) ->
   SearchPage.getArtistName r
   = JS.join ", " (SearchPage.nonBlankStrings (map SearchPage.creditDisplayName (creditsOf r)))).
Proof.
  split; [|split; [apply getArtistNames_same|split]].
  - unfold SearchPage.getArtistName.
    destruct (SearchPage.artist_credit r) as [[|c cs]|]; try reflexivity.
    cbv zeta.
    destruct (SearchPage.nonBlankStrings _) as [|x xs] eqn:Hn; [reflexivity|].
    apply join_not_blank.
    apply (nonBlankStrings_not_blank (map SearchPage.creditDisplayName (c :: cs))).
    rewrite Hn. now left.
  - intro Hall. unfold SearchPage.getArtistName, creditsOf in *.
    destruct (SearchPage.artist_credit r) as [[|c cs]|]; try reflexivity.
    cbv zeta.
    destruct (SearchPage.nonBlankStrings _) as [|x xs] eqn:Hn; [reflexivity|].
    exfalso.
    assert (Hx : In x (SearchPage.nonBlankStrings (map SearchPage.creditDisplayName (c :: cs))))
      by (rewrite Hn; now left).
    pose proof (nonBlankStrings_not_blank _ _ Hx) as Hnb.
    unfold SearchPage.nonBlankStrings in Hx. apply in_flat_map in Hx as ([y|] & Hy & Hin).
    + destruct (0 <? String.length (JS.trim y))%nat; [|contradiction].
      destruct Hin as [<-|[]].
      apply in_map_iff in Hy as (c0 & Hc0 & Hin0).
      rewrite (Hall c0 y Hin0 Hc0) in Hnb. discriminate.
    + contradiction.
  - intros (c & n & Hc & Hn & Hnb). unfold SearchPage.getArtistName, creditsOf in *.
    destruct (SearchPage.artist_credit r) as [[|c0 cs]|]; try contradiction.
    cbv zeta.
    destruct (SearchPage.nonBlankStrings _) as [|x xs] eqn:Hx; [|reflexivity].
    exfalso.
    assert (Hin : In n (SearchPage.nonBlankStrings (map SearchPage.creditDisplayName (c0 :: cs)))).
    { apply nonBlankStrings_in; [|assumption]. rewrite <- Hn. now apply in_map. }
    rewrite Hx in Hin. contradiction.
Qed.

Lemma getArtistName_never_blank_witness :
  SearchPage.getArtistName recNameless = "Unknown artist" /\
  SearchPage.getArtistName recR1
  = JS.join ", " (SearchPage.nonBlankStrings (map SearchPage.creditDisplayName (creditsOf recR1))).
Proof.
  destruct (getArtistName_never_blank recNameless) as (_ & _ & Hnone & _).
  destruct (getArtistName_never_blank recR1) as (_ & _ & _ & Hsome).
  split.
  - apply Hnone. intros c n [<-|[<-|[]]] Hn; vm_compute in Hn; [|discriminate].
    injection Hn as <-. reflexivity.
  - apply Hsome. exists (mkCredit (Some "The Beatles") None), "The Beatles".
    split; [now left|]. split; reflexivity.
Defined.

Lemma escapeQueryValue_quotes_witness :
  unescape (SearchPage.escapeQueryValue titleAB) = titleAB /\ titleAB = titleAB.
Proof.
  destruct (escapeQueryValue_quotes titleAB) as (_ & Hback & Hinj).
  split; [exact Hback | apply Hinj; reflexivity].
Defined.

(* ------------------------------------------------------------------ *)
(** ** More on the recording page *)

Lemma getFirstRelease_in (l : list RecordingPage.MusicBrainzRelease)
  (m : RecordingPage.MusicBrainzRelease) :
  RecordingPage.getFirstRelease (Some l) = Some m -> In m l.
Proof.
  destruct l as [|r rs]; [discriminate|].
  unfold RecordingPage.getFirstRelease. cbv zeta.
  set (list := if (0 <? _)%nat then _ else _).
  assert (Hsub : forall y, In y list -> In y (r :: rs)).
  { subst list. intros y.
    destruct (0 <? List.length (filter RecordingPage.hasDate (r :: rs)))%nat; [|auto].
    intro Hy. now apply filter_In in Hy. }
  destruct list as [|x l]; [discriminate|].
  rewrite firstStep_head.
  destruct (firstStep_scan l x) as (l1 & m' & l2 & -> & Hs & _).
  intro E. injection E as <-. apply Hsub. rewrite Hs. apply in_elt.
Qed.

(** X12.  [getFirstRelease] returns nothing exactly for an absent or empty
    list, and otherwise one of the releases of the list.  When some release
    has a non-blank date the result is the first, in input order, of the
    releases with a non-blank date whose key ([normalizePartialDate] of the
    date as it is, untrimmed) is least among them.  When no release has a
    date field the result is the first release. *)
Theorem getFirstRelease_selects (l : list RecordingPage.MusicBrainzRelease) :
  (forall rs, RecordingPage.getFirstRelease rs = None <-> rs = None \/ rs = Some []) /\
  (forall m, RecordingPage.getFirstRelease (Some l) = Some m -> In m l) /\
  (filter RecordingPage.hasDate l <> [] ->
   exists l1 m l2,
     RecordingPage.getFirstRelease (Some l) = Some m /\
     filter RecordingPage.hasDate l = (l1 ++ m :: l2)%list /\
     RecordingPage.hasDate m = true /\
     Forall (fun y => JS.lt (RecordingPage.sortKey m) (RecordingPage.sortKey y) = true) l1 /\
     Forall (fun y => JS.lt (RecordingPage.sortKey y) (RecordingPage.sortKey m) = false) l2) /\
  (forall x xs, l = x :: xs -> Forall (fun y => RecordingPage.date y = None) l ->
                RecordingPage.getFirstRelease (Some l) = Some x).
Proof.
  split; [exact getFirstRelease_null|].
  split; [exact (getFirstRelease_in l)|].
  split; [exact (getFirstRelease_dated l)|].
  intros x xs -> Hall. now apply getFirstRelease_all_absent.
Qed.

Lemma getFirstRelease_selects_witness :
  (exists l1 m l2,
     RecordingPage.getFirstRelease (Some [undatedFirst; dated1970; dated1965]) = Some m /\
     filter RecordingPage.hasDate [undatedFirst; dated1970; dated1965]
     = (l1 ++ m :: l2)%list /\
     RecordingPage.hasDate m = true) /\
  RecordingPage.getFirstRelease (Some [undatedFirst]) = Some undatedFirst.
Proof.
  split.
  - destruct (getFirstRelease_selects [undatedFirst; dated1970; dated1965])
      as (_ & _ & Hdated & _).
    destruct Hdated as (l1 & m & l2 & Hg & Hs & Hd & _); [discriminate|].
    exists l1, m, l2. auto.
  - destruct (getFirstRelease_selects [undatedFirst]) as (_ & _ & _ & Habsent).
    apply (Habsent undatedFirst []); [reflexivity|].
    constructor; [reflexivity | constructor].
Defined.




(* ------------------------------------------------------------------ *)
(** ** Letter case in the scorers *)

Lemma lowerChar_idem (c : ascii) : JS.lowerChar (JS.lowerChar c) = JS.lowerChar c.
Proof. destruct c as [[] [] [] [] [] [] [] []]; reflexivity. Qed.

Lemma isWhiteSpace_lowerChar (c : ascii) :
  JS.isWhiteSpace (JS.lowerChar c) = JS.isWhiteSpace c.
Proof. destruct c as [[] [] [] [] [] [] [] []]; reflexivity. Qed.

Lemma toLowerCase_idem (s : string) : JS.toLowerCase (JS.toLowerCase s) = JS.toLowerCase s.
Proof.
  induction s as [|c s IH]; cbn; [reflexivity|]. now rewrite lowerChar_idem, IH.
Qed.

Lemma toLowerCase_app (a b : string) :
  JS.toLowerCase (a ++ b) = JS.toLowerCase a ++ JS.toLowerCase b.
Proof.
  induction a as [|c a IH]; cbn; [reflexivity|]. now rewrite IH.
Qed.

Lemma toLowerCase_length (s : string) :
  String.length (JS.toLowerCase s) = String.length s.
Proof.
  induction s as [|c s IH]; cbn; [reflexivity|]. now rewrite IH.
Qed.

Lemma trimStart_lower (s : string) :
  JS.trimStart (JS.toLowerCase s) = JS.toLowerCase (JS.trimStart s).
Proof.
  induction s as [|c s IH]; cbn; [reflexivity|].
  rewrite isWhiteSpace_lowerChar. destruct (JS.isWhiteSpace c); [exact IH | reflexivity].
Qed.

Lemma trimEnd_lower (s : string) :
  JS.trimEnd (JS.toLowerCase s) = JS.toLowerCase (JS.trimEnd s).
Proof.
  induction s as [|c s IH]; cbn; [reflexivity|].
  rewrite IH, isWhiteSpace_lowerChar.
  destruct (JS.trimEnd s); cbn; [destruct (JS.isWhiteSpace c)|]; reflexivity.
Qed.

Lemma trim_lower (s : string) : JS.trim (JS.toLowerCase s) = JS.toLowerCase (JS.trim s).
Proof. unfold JS.trim. now rewrite trimStart_lower, trimEnd_lower. Qed.

Lemma normalizeForCompare_lower (s : string) :
  SearchPage.normalizeForCompare (JS.toLowerCase s) = SearchPage.normalizeForCompare s.
Proof.
  unfold SearchPage.normalizeForCompare. now rewrite trim_lower, toLowerCase_idem.
Qed.

Lemma includesAny_lower (h : string) (needles : list string) :
  SearchPage.includesAny (JS.toLowerCase h) needles = SearchPage.includesAny h needles.
Proof. unfold SearchPage.includesAny. now rewrite normalizeForCompare_lower. Qed.

Lemma nonBlankStrings_lower (vs : list (option string)) :
  SearchPage.nonBlankStrings (map (option_map JS.toLowerCase) vs)
  = map JS.toLowerCase (SearchPage.nonBlankStrings vs).
Proof.
  unfold SearchPage.nonBlankStrings.
  induction vs as [|[v|] vs IH]; cbn [map flat_map option_map]; [reflexivity | |exact IH].
  rewrite IH, trim_lower, toLowerCase_length, map_app.
  now destruct (0 <? String.length (JS.trim v))%nat.
Qed.

Lemma join_lower (xs : list string) :
  JS.join " " (map JS.toLowerCase xs) = JS.toLowerCase (JS.join " " xs).
Proof.
  unfold JS.join. induction xs as [|x [|y ys] IH]; try reflexivity.
  change (String.concat " " (map JS.toLowerCase (x :: y :: ys)))
    with (JS.toLowerCase x ++ " " ++ String.concat " " (map JS.toLowerCase (y :: ys))).
  change (String.concat " " (x :: y :: ys)) with (x ++ " " ++ String.concat " " (y :: ys)).
  now rewrite IH, !toLowerCase_app.
Qed.

Lemma groupField_lower (group : option SearchPage.ReleaseGroup) :
  SearchPage.groupField (option_map lowerGroup group) SearchPage.group_title
  = option_map JS.toLowerCase (SearchPage.groupField group SearchPage.group_title) /\
  SearchPage.groupField (option_map lowerGroup group) SearchPage.group_disambiguation
  = option_map JS.toLowerCase (SearchPage.groupField group SearchPage.group_disambiguation) /\
  SearchPage.groupField (option_map lowerGroup group) SearchPage.primary_type
  = option_map JS.toLowerCase (SearchPage.groupField group SearchPage.primary_type) /\
  SearchPage.groupField (option_map lowerGroup group) SearchPage.secondary_types
  = option_map (map JS.toLowerCase) (SearchPage.groupField group SearchPage.secondary_types) /\
  SearchPage.groupField (option_map lowerGroup group) SearchPage.group_id
  = SearchPage.groupField group SearchPage.group_id.
Proof. destruct group; repeat split. Qed.

Lemma qualityText_lower (r : SearchPage.MusicBrainzRelease) :
  SearchPage.qualityText (lowerRelease r) = JS.toLowerCase (SearchPage.qualityText r).
Proof.
  unfold SearchPage.qualityText. cbv zeta.
  destruct (groupField_lower (SearchPage.release_group r)) as (Ht & Hd & _).
  cbn [lowerRelease SearchPage.release_title SearchPage.disambiguation
       SearchPage.release_group].
  rewrite Ht, Hd, <- join_lower, <- nonBlankStrings_lower. reflexivity.
Qed.

Lemma primacyText_lower (r : SearchPage.MusicBrainzRelease) :
  SearchPage.primacyText (lowerRelease r) = JS.toLowerCase (SearchPage.primacyText r).
Proof.
  unfold SearchPage.primacyText. cbv zeta.
  destruct (groupField_lower (SearchPage.release_group r)) as (_ & Hd & _).
  cbn [lowerRelease SearchPage.release_title SearchPage.disambiguation
       SearchPage.release_group].
  rewrite Hd, <- join_lower, <- nonBlankStrings_lower. reflexivity.
Qed.

(** X14.  The two scorers do not read the letter case: putting the status,
    the titles, the disambiguations, the primary type and the secondary types
    of a release in lower case changes neither its quality penalty nor its
    primacy penalty. *)
Theorem penalties_ignore_case (r : SearchPage.MusicBrainzRelease) :
  SearchPage.getReleaseQualityPenalty (lowerRelease r)
  = SearchPage.getReleaseQualityPenalty r /\
  SearchPage.getPrimaryReleaseGroupPenalty (lowerRelease r)
  = SearchPage.getPrimaryReleaseGroupPenalty r.
Proof.
  destruct (groupField_lower (SearchPage.release_group r)) as (_ & _ & Hp & Hs & Hi).
  split.
  - unfold SearchPage.getReleaseQualityPenalty. cbv zeta.
    rewrite qualityText_lower, includesAny_lower.
    cbn [lowerRelease SearchPage.release_status SearchPage.release_group].
    rewrite Hp, Hs.
    destruct (SearchPage.release_status r) as [st|];
      destruct (SearchPage.groupField (SearchPage.release_group r) SearchPage.primary_type)
        as [pt|];
      destruct (SearchPage.groupField (SearchPage.release_group r) SearchPage.secondary_types)
        as [ts|];
      cbn [option_map]; rewrite ?normalizeForCompare_lower, ?map_map;
      rewrite ?(map_ext _ _ normalizeForCompare_lower); reflexivity.
  - unfold SearchPage.getPrimaryReleaseGroupPenalty, SearchPage.lacksId. cbv zeta.
    rewrite primacyText_lower, includesAny_lower.
    cbn [lowerRelease SearchPage.release_group]. rewrite Hs, Hi.
    destruct (SearchPage.groupField (SearchPage.release_group r) SearchPage.secondary_types)
      as [ts|]; cbn [option_map]; rewrite ?length_map; reflexivity.
Qed.

(* ------------------------------------------------------------------ *)
(** ** The order of the date keys *)

Lemma isDigit_bounds (c : ascii) :
  isDigit c = true -> (48 <= N_of_ascii c <= 57)%N.
Proof.
  unfold isDigit. cbv zeta. intro H. apply andb_true_iff in H as [H1 H2].
  apply N.leb_le in H1, H2. lia.
Qed.

Lemma twoDigitsIn_digits (lo hi : N) (c1 c2 : ascii) :
  twoDigitsIn lo hi c1 c2 = true -> isDigit c1 = true /\ isDigit c2 = true.
Proof.
  unfold twoDigitsIn. intro H. apply andb_true_iff in H as [H _].
  now apply andb_true_iff in H.
Qed.

Lemma digit_decompose (c : ascii) :
  isDigit c = true -> exists d, (d <= 9)%N /\ N_of_ascii c = (d + 48)%N.
Proof.
  intro H. apply isDigit_bounds in H. exists (N_of_ascii c - 48)%N. lia.
Qed.

Lemma key_order (y1 y2 y3 y4 m1 m2 d1 d2 z1 z2 z3 z4 n1 n2 e1 e2 : ascii) :
  Forall (fun c => isDigit c = true)
    [y1; y2; y3; y4; m1; m2; d1; d2; z1; z2; z3; z4; n1; n2; e1; e2] ->
  JS.lt (keyOf y1 y2 y3 y4 m1 m2 d1 d2) (keyOf z1 z2 z3 z4 n1 n2 e1 e2) = true <->
  (valueOf y1 y2 y3 y4 m1 m2 d1 d2 < valueOf z1 z2 z3 z4 n1 n2 e1 e2)%N.
Proof.
  intro Hd. unfold keyOf, valueOf, digitOf.
  rewrite !lt_cons, !ascii_compare_refl, lt_irrefl. unfold Ascii.compare.
  repeat match goal with
         | H : Forall _ (?c :: _) |- _ =>
             let Hc := fresh "Hc" in
             let d := fresh "d" in
             let Hb := fresh "Hb" in
             apply Forall_cons_iff in H as [Hc H];
             apply digit_decompose in Hc as (d & Hb & Hc);
             rewrite !Hc, ?N.add_sub; clear Hc; clear c
         end.
  clear Hd.
  repeat match goal with
         | |- (match (?a ?= ?b)%N with Eq => _ | Lt => true | Gt => false end = true)
              <-> _ =>
             destruct (N.compare_spec a b);
             [ | split; [lia | reflexivity] | split; [discriminate | lia] ]
         end.
  split; [discriminate | lia].
Qed.

Lemma partial_date_shape (s : string) :
  isPartialDate s = true ->
  exists y1 y2 y3 y4 m1 m2 d1 d2,
    Forall (fun c => isDigit c = true) [y1; y2; y3; y4; m1; m2; d1; d2] /\
    SearchPage.normalizePartialDate s = keyOf y1 y2 y3 y4 m1 m2 d1 d2 /\
    dateValue s = valueOf y1 y2 y3 y4 m1 m2 d1 d2.
Proof.
  destruct s as [|y1 [|y2 [|y3 [|y4 rest]]]]; try discriminate.
  cbn [isPartialDate]. intro H.
  apply andb_true_iff in H as [H Hrest].
  apply andb_true_iff in H as [H H4].
  apply andb_true_iff in H as [H H3].
  apply andb_true_iff in H as [H1 H2].
  exists y1, y2, y3, y4.
  destruct rest as [|dash1 [|m1 [|m2 rest']]]; try discriminate.
  - exists "0"%char, "0"%char, "0"%char, "0"%char.
    split; [repeat constructor; assumption|]. split; [reflexivity|].
    unfold dateValue, valueOf, digitOf. cbn. lia.
  - apply andb_true_iff in Hrest as [Hm Hday].
    apply andb_true_iff in Hm as [Hdash Hm].
    apply Ascii.eqb_eq in Hdash. subst dash1.
    apply twoDigitsIn_digits in Hm as [Hm1 Hm2].
    exists m1, m2.
    destruct rest' as [|dash2 [|d1 [|d2 [|? ?]]]]; try discriminate.
    + exists "0"%char, "0"%char.
      split; [repeat constructor; assumption|]. split; [reflexivity|].
      unfold dateValue, valueOf, digitOf. cbn. lia.
    + apply andb_true_iff in Hday as [Hdash Hday].
      apply Ascii.eqb_eq in Hdash. subst dash2.
      apply twoDigitsIn_digits in Hday as [Hd1 Hd2].
      exists d1, d2.
      split; [repeat constructor; assumption|]. split; reflexivity.
Qed.

(** X15.  On real partial dates the date keys order as the dates do: the
    normalized form of one is below the normalized form of another, as
    strings, exactly when its year, month and day, read as numbers with a
    month or day that is not given counting as 0, come first. *)
Theorem normalized_dates_order (s t : string) :
  isPartialDate s = true -> isPartialDate t = true ->
  (JS.lt (SearchPage.normalizePartialDate s) (SearchPage.normalizePartialDate t) = true
   <-> (dateValue s < dateValue t)%N).
Proof.
  intros Hs Ht.
  destruct (partial_date_shape s Hs) as (y1 & y2 & y3 & y4 & m1 & m2 & d1 & d2 & Hd & -> & ->).
  destruct (partial_date_shape t Ht) as (z1 & z2 & z3 & z4 & n1 & n2 & e1 & e2 & He & -> & ->).
  apply key_order. rewrite Forall_forall in *. intros c Hc.
  change [y1; y2; y3; y4; m1; m2; d1; d2; z1; z2; z3; z4; n1; n2; e1; e2]
    with ([y1; y2; y3; y4; m1; m2; d1; d2] ++ [z1; z2; z3; z4; n1; n2; e1; e2])%list in Hc.
  apply in_app_or in Hc as [Hc|Hc]; auto.
Qed.

Lemma normalized_dates_order_witness :
  JS.lt (SearchPage.normalizePartialDate "1965") (SearchPage.normalizePartialDate "1965-12-03")
  = true.
Proof.
  apply (normalized_dates_order "1965" "1965-12-03"); [reflexivity | reflexivity |].
  vm_compute. reflexivity.
Defined.

(* ------------------------------------------------------------------ *)
(** ** Releases without a penalty *)

Lemma arrayIncludes_In (xs : list string) (x : string) :
  JS.arrayIncludes xs x = true <-> In x xs.
Proof.
  unfold JS.arrayIncludes. rewrite existsb_exists. split.
  - intros (y & Hy & E). apply String.eqb_eq in E. now subst.
  - intro H. exists x. split; [assumption | apply String.eqb_refl].
Qed.

Lemma arrayIncludes_not_In (xs : list string) (x : string) :
  JS.arrayIncludes xs x = false <-> ~ In x xs.
Proof.
  rewrite <- arrayIncludes_In. destruct (JS.arrayIncludes xs x); split; congruence.
Qed.

Lemma quality_zero_bools (r : SearchPage.MusicBrainzRelease) :
  SearchPage.getReleaseQualityPenalty r = 0 <->
  (statusOf r =? "bootleg")%string = false /\
  (0 <? String.length (statusOf r))%nat && negb (statusOf r =? "official")%string = false /\
  JS.arrayIncludes (secondaryTypesOf r) "compilation" = false /\
  JS.arrayIncludes (secondaryTypesOf r) "live" = false /\
  JS.arrayIncludes (secondaryTypesOf r) "remix" = false /\
  JS.arrayIncludes (secondaryTypesOf r) "soundtrack" = false /\
  SearchPage.includesAny (SearchPage.qualityText r) SearchPage.reissueTerms = false /\
  (0 <? String.length (primaryTypeOf r))%nat
  && negb (JS.arrayIncludes ["album"; "single"; "ep"] (primaryTypeOf r)) = false.
Proof.
  unfold SearchPage.getReleaseQualityPenalty. cbv zeta.
  fold (statusOf r) (primaryTypeOf r) (secondaryTypesOf r).
  destruct (statusOf r =? "bootleg")%string,
    ((0 <? String.length (statusOf r))%nat && negb (statusOf r =? "official")%string),
    (JS.arrayIncludes (secondaryTypesOf r) "compilation"),
    (JS.arrayIncludes (secondaryTypesOf r) "live"),
    (JS.arrayIncludes (secondaryTypesOf r) "remix"),
    (JS.arrayIncludes (secondaryTypesOf r) "soundtrack"),
    (SearchPage.includesAny (SearchPage.qualityText r) SearchPage.reissueTerms),
    ((0 <? String.length (primaryTypeOf r))%nat
     && negb (JS.arrayIncludes ["album"; "single"; "ep"] (primaryTypeOf r)));
    (split; [intro H; try (exfalso; lia); repeat split
            | intros (?&?&?&?&?&?&?&?); try discriminate; reflexivity]).
Qed.

(** X16.  The releases without a penalty.  The quality penalty is 0 exactly
    when the status, trimmed and lower-cased, is empty or ["official"], none
    of compilation, live, remix and soundtrack is among the normalized
    secondary types, the free text has no reissue term, and the primary
    type, trimmed and lower-cased, is empty or one of album, single and ep.
    The primacy penalty is 0 exactly when the release has a release-group
    with a non-empty id and no secondary type (as listed, not normalized) and
    its free text has none of the primacy terms. *)
Theorem zero_penalty_iff (r : SearchPage.MusicBrainzRelease) :
  (SearchPage.getReleaseQualityPenalty r = 0 <->
   (statusOf r = "" \/ statusOf r = "official") /\
   (forall t, In t ["compilation"; "live"; "remix"; "soundtrack"] ->
              ~ In t (secondaryTypesOf r)) /\
   SearchPage.includesAny (SearchPage.qualityText r) SearchPage.reissueTerms = false /\
   (primaryTypeOf r = "" \/ In (primaryTypeOf r) ["album"; "single"; "ep"])) /\
  (SearchPage.getPrimaryReleaseGroupPenalty r = 0 <->
   (exists g i, SearchPage.release_group r = Some g /\
                SearchPage.group_id g = Some i /\ i <> "") /\
   (SearchPage.groupField (SearchPage.release_group r) SearchPage.secondary_types = None \/
    SearchPage.groupField (SearchPage.release_group r) SearchPage.secondary_types = Some []) /\
   SearchPage.includesAny (SearchPage.primacyText r) SearchPage.secondaryTerms = false).
Proof.
  split.
  - rewrite quality_zero_bools. rewrite !arrayIncludes_not_In. split.
    + intros (Hb & Ho & Hc & Hl & Hr & Hs & Ht & Hp).
      split; [|split; [|split; [exact Ht|]]].
      * destruct (statusOf r) as [|c s] eqn:E; [now left|]. right.
        cbn [String.length Nat.ltb Nat.leb andb] in Ho.
        apply negb_false_iff, String.eqb_eq in Ho. exact Ho.
      * intros t [<-|[<-|[<-|[<-|[]]]]]; assumption.
      * destruct (primaryTypeOf r) as [|c s] eqn:E; [now left|]. right.
        cbn [String.length Nat.ltb Nat.leb andb] in Hp.
        apply negb_false_iff, arrayIncludes_In in Hp. exact Hp.
    + intros (Hst & Hsec & Ht & Hp).
      split; [|split; [|repeat (split; [apply Hsec; simpl; auto|]); split; [exact Ht|]]].
      * destruct Hst as [-> | ->]; reflexivity.
      * destruct Hst as [-> | ->]; reflexivity.
      * destruct Hp as [-> | Hp]; [reflexivity|].
        apply arrayIncludes_In in Hp. rewrite Hp. apply andb_false_r.
  - unfold SearchPage.getPrimaryReleaseGroupPenalty, SearchPage.lacksId. cbv zeta.
    destruct (SearchPage.includesAny (SearchPage.primacyText r) SearchPage.secondaryTerms).
    { split; [intro H; exfalso; revert H; split_ifs; lia | intros (_ & _ & H); discriminate]. }
    destruct (SearchPage.release_group r) as [g|]; cbn [SearchPage.groupField].
    + destruct (SearchPage.group_id g) as [i|] eqn:Hgi.
      * destruct (String.eqb_spec i "") as [->|Hi].
        -- split; [intro H; exfalso; revert H; split_ifs; lia|].
           intros ((g' & i' & Hg & Hid & Hne) & _). injection Hg as <-.
           rewrite Hgi in Hid. injection Hid as <-. congruence.
        -- destruct (SearchPage.secondary_types g) as [[|t ts]|]; cbn.
           ++ split; [intros _|reflexivity]. split; [exists g, i; auto|]. auto.
           ++ split; [discriminate|]. intros (_ & [H|H] & _); discriminate.
           ++ split; [intros _|reflexivity]. split; [exists g, i; auto|]. auto.
      * split; [intro H; exfalso; revert H; split_ifs; lia|].
        intros ((g' & i' & Hg & Hid & _) & _). injection Hg as <-. congruence.
    + split; [discriminate|]. intros ((g' & i' & Hg & _) & _). discriminate.
Qed.

Lemma zero_penalty_iff_witness :
  SearchPage.getReleaseQualityPenalty relAlbum = 0 /\
  SearchPage.getPrimaryReleaseGroupPenalty relAlbum = 0.
Proof.
  destruct (zero_penalty_iff relAlbum) as [Hq Hp]. split.
  - apply Hq. split; [now right|]. split; [|split; [reflexivity|]].
    + intros t _ [].
    + right. simpl. auto.
  - apply Hp. split; [|split; [now right | reflexivity]].
    eexists. exists "g1". split; [reflexivity|]. split; [reflexivity | discriminate].
Defined.

(* ------------------------------------------------------------------ *)
(** ** Examples *)

Lemma toCanonicalMatch_release_group_witness :
  SearchPage.releaseGroup (SearchPage.toCanonicalMatch recBare) = None /\
  SearchPage.releaseGroup (SearchPage.toCanonicalMatch recR2)
  = Some (SearchPage.mkCanonicalGroup (Some "g") None None (Some ["compilation"])).
Proof.
  destruct (toCanonicalMatch_release_group recBare) as [Hnone _].
  destruct (toCanonicalMatch_release_group recR2) as [_ Hsome].
  split.
  - apply Hnone. now left.
  - apply Hsome. exists rel19651203. eexists.
    split; [now left|]. split; [reflexivity|]. split; reflexivity.
Defined.

Lemma query_empty_iff_blank_witness :
  SearchPage.buildRecordingSearchQuery "  " " " = "" /\
  JS.trim (SearchPage.buildRecordingSearchQuery "Help!" "") <> "".
Proof.
  destruct (query_empty_iff_blank "  " " ") as [Hblank _].
  destruct (query_empty_iff_blank "Help!" "") as [Hfilled Htrim].
  split.
  - apply Hblank. split; reflexivity.
  - intro E. apply Htrim, Hfilled in E. destruct E as [E _]. discriminate.
Defined.
